(** * Gallifrey: error taxonomy, normalizers, validators and the error hooks

    A shallow embedding of
      - [src/types/api.ts]          (module [Api]),
      - [src/types/validation.ts]   (module [Validation]),
      - [src/utils/errorHandler.ts] (module [ErrorHandler]),
      - [src/hooks/useErrorHandler.ts] (module [Hooks]),
    preceded by the small part of the JavaScript runtime these files use
    (module [Js]): string primitives, number formatting and regular
    expressions.

    Conventions.
      - A JavaScript string is a [string]; every [ascii] stands for one
        UTF-16 code unit below 256, so [String.length] is [.length].
      - A JavaScript number that the code only stores, compares or prints
        is an integer of [Z].
      - The clock read by [new Date()] is an explicit argument [now].
      - The constructor [URL] of the host platform is an explicit
        argument [url_parses].
      - An optional parameter or property is an [option]; [None] is the
        argument left out or the property absent.
      - Code that can throw returns a [Completion]; state is passed
        explicitly, and stays as written when a call throws.

    The definitions come first, file by file; the facts follow, with one
    theorem per checked property, named after it. *)

From Stdlib Require Import ZArith List Bool Ascii String DecimalString Lia.
Import ListNotations.

Local Open Scope string_scope.

(* ================================================================== *)
(** * The JavaScript primitives used by the sources                    *)
(* ================================================================== *)

Module Js.

(** ** Strings *)

(** [hay.includes(needle)] *)
Fixpoint includes (hay needle : string) : bool :=
  String.prefix needle hay ||
  match hay with
  | EmptyString => false
  | String _ rest => includes rest needle
  end.

(** [xs.includes(x)] on an array of strings *)
Definition array_includes (xs : list string) (x : string) : bool :=
  existsb (String.eqb x) xs.

(** [xs.join(sep)] *)
Fixpoint join (sep : string) (xs : list string) : string :=
  match xs with
  | [] => EmptyString
  | [x] => x
  | x :: rest => x ++ sep ++ join sep rest
  end.

(** WhiteSpace and LineTerminator code units below 256: TAB, LF, VT, FF,
    CR, SP and NBSP.  [trim] and the class [\s] use the same set. *)
Definition is_white_space (c : ascii) : bool :=
  let n := nat_of_ascii c in
  ((9 <=? n)%nat && (n <=? 13)%nat) || (n =? 32)%nat || (n =? 160)%nat.

Fixpoint trimStart (s : string) : string :=
  match s with
  | EmptyString => EmptyString
  | String c rest => if is_white_space c then trimStart rest else s
  end.

Fixpoint trimEnd (s : string) : string :=
  match s with
  | EmptyString => EmptyString
  | String c rest =>
      match trimEnd rest with
      | EmptyString => if is_white_space c then EmptyString
                       else String c EmptyString
      | kept => String c kept
      end
  end.

(** [s.trim()] *)
Definition trim (s : string) : string := trimEnd (trimStart s).

(** [!s] for a string [s]: only the empty string is falsy. *)
Definition falsy_string (s : string) : bool :=
  match s with
  | EmptyString => true
  | String _ _ => false
  end.

(** ** Numbers *)

(** [String(n)] and template interpolation of an integer. *)
Definition number_to_string (n : Z) : string :=
  NilZero.string_of_int (Z.to_int n).

(** [(bytes / (1024 * 1024)).toFixed(2)] for a non-negative integer
    [bytes].  The quotient by a power of two is exact in binary floating
    point, and [toFixed(2)] picks the integer number of hundredths
    closest to it, the larger one on a tie. *)
Definition megabytes_toFixed2 (bytes : Z) : string :=
  let hundredths := ((200 * bytes + 1048576) / 2097152)%Z in
  let whole := (hundredths / 100)%Z in
  let frac := (hundredths mod 100)%Z in
  number_to_string whole ++ "." ++
  number_to_string (frac / 10)%Z ++ number_to_string (frac mod 10)%Z.

(** ** Regular expressions *)

(** The fragment of the regular-expression syntax the sources use:
    character classes, concatenation and [+], plus what derivatives
    need. *)
Inductive regex : Type :=
| Never : regex
| Eps : regex
| Cls (p : ascii -> bool) : regex
| Cat (r1 r2 : regex) : regex
| Alt (r1 r2 : regex) : regex
| Star (r : regex) : regex.

(** [r+] *)
Definition Plus (r : regex) : regex := Cat r (Star r).

Fixpoint nullable (r : regex) : bool :=
  match r with
  | Never => false
  | Eps => true
  | Cls _ => false
  | Cat r1 r2 => nullable r1 && nullable r2
  | Alt r1 r2 => nullable r1 || nullable r2
  | Star _ => true
  end.

Fixpoint deriv (c : ascii) (r : regex) : regex :=
  match r with
  | Never => Never
  | Eps => Never
  | Cls p => if p c then Eps else Never
  | Cat r1 r2 =>
      if nullable r1 then Alt (Cat (deriv c r1) r2) (deriv c r2)
      else Cat (deriv c r1) r2
  | Alt r1 r2 => Alt (deriv c r1) (deriv c r2)
  | Star r1 => Cat (deriv c r1) (Star r1)
  end.

(** The whole of [s] is a word of [r]. *)
Fixpoint matches (r : regex) (s : string) : bool :=
  match s with
  | EmptyString => nullable r
  | String c rest => matches (deriv c r) rest
  end.

(** A regular-expression literal without flags: a body, anchored by [^]
    and [$] or not.  Without the [m] flag, [$] is the end of the input. *)
Record RegExp : Type := mkRegExp {
  anchor_start : bool;
  body : regex;
  anchor_end : bool
}.

Definition any_char : regex := Cls (fun _ => true).

(** [re.test(s)] (no [g] flag, so no state is kept between calls). *)
Definition test (re : RegExp) (s : string) : bool :=
  let before := if anchor_start re then Eps else Star any_char in
  let after := if anchor_end re then Eps else Star any_char in
  matches (Cat before (Cat (body re) after)) s.

(** Character classes. *)
Definition in_range (lo hi : ascii) (c : ascii) : bool :=
  (nat_of_ascii lo <=? nat_of_ascii c)%nat &&
  (nat_of_ascii c <=? nat_of_ascii hi)%nat.

Definition one_of (chars : string) (c : ascii) : bool :=
  existsb (Ascii.eqb c) (list_ascii_of_string chars).

(** [\d] *)
Definition digit (c : ascii) : bool := in_range "0" "9" c.

(** The words of a regular expression, against which [matches] is
    checked below. *)
Inductive words : regex -> string -> Prop :=
| words_Eps : words Eps EmptyString
| words_Cls (p : ascii -> bool) (c : ascii) :
    p c = true -> words (Cls p) (String c EmptyString)
| words_Cat (r1 r2 : regex) (s1 s2 : string) :
    words r1 s1 -> words r2 s2 -> words (Cat r1 r2) (s1 ++ s2)
| words_Alt_l (r1 r2 : regex) (s : string) :
    words r1 s -> words (Alt r1 r2) s
| words_Alt_r (r1 r2 : regex) (s : string) :
    words r2 s -> words (Alt r1 r2) s
| words_Star_nil (r : regex) : words (Star r) EmptyString
| words_Star_more (r : regex) (s1 s2 : string) :
    words r s1 -> words (Star r) s2 -> words (Star r) (s1 ++ s2).

(** Every code unit of [s] satisfies [p]. *)
Fixpoint every (p : ascii -> bool) (s : string) : bool :=
  match s with
  | EmptyString => true
  | String c rest => p c && every p rest
  end.

(** Some code unit of [s] satisfies [p]. *)
Fixpoint some (p : ascii -> bool) (s : string) : bool :=
  match s with
  | EmptyString => false
  | String c rest => p c || some p rest
  end.

(** [r{n}] *)
Fixpoint Times (n : nat) (r : regex) : regex :=
  match n with
  | O => Eps
  | S m => Cat r (Times m r)
  end.

(** [r?] *)
Definition Opt (r : regex) : regex := Alt r Eps.

(** The canonical form that the [i] flag compares (without the [u]
    flag): the upper-case code unit.  Below 256, the letters [a]-[z] and
    the accented letters 224-254 other than the division sign 247 have
    one; the upper-case forms of the remaining code units lie outside
    the range or are longer than one unit, which leaves them as they
    are. *)
Definition canonicalize (c : ascii) : ascii :=
  let n := nat_of_ascii c in
  if ((97 <=? n)%nat && (n <=? 122)%nat) ||
     ((224 <=? n)%nat && (n <=? 254)%nat && negb (n =? 247)%nat)
  then ascii_of_nat (n - 32)
  else c.

(** The 256 code units of the model. *)
Definition code_units : list ascii := List.map ascii_of_nat (List.seq 0 256).

(** A character class under the [i] flag: [c] belongs to it when some
    member of the class has the canonical form of [c]. *)
Definition ignore_case (p : ascii -> bool) (c : ascii) : bool :=
  existsb (fun m => p m && Ascii.eqb (canonicalize m) (canonicalize c))
    code_units.

(** [x.toFixed(2)] for [x = bytes / (1024 * 1024)] and any integer
    [bytes]: a negative [x] is printed as a minus sign followed by the
    digits of its absolute value. *)
Definition signed_megabytes_toFixed2 (bytes : Z) : string :=
  if (bytes <? 0)%Z then "-" ++ megabytes_toFixed2 (- bytes)
  else megabytes_toFixed2 bytes.

End Js.

(* ================================================================== *)
(** * src/types/api.ts                                                 *)
(* ================================================================== *)

Module Api.

(** [enum ErrorCode]: a string enum, every member's value is its name. *)
Inductive ErrorCode : Type :=
| NETWORK_ERROR | TIMEOUT_ERROR | CONNECTION_ERROR
| UNAUTHORIZED | FORBIDDEN | SESSION_EXPIRED | INVALID_CREDENTIALS
| VALIDATION_ERROR | INVALID_INPUT | MISSING_REQUIRED_FIELD
| MEDIA_UPLOAD_FAILED | MEDIA_TOO_LARGE | INVALID_MEDIA_TYPE
| MEDIA_PROCESSING_FAILED
| DATABASE_ERROR | RECORD_NOT_FOUND | DUPLICATE_RECORD
| RATE_LIMIT_EXCEEDED | CONTENT_MODERATION_FAILED | ALREADY_REACTED
| UNKNOWN_ERROR | SERVER_ERROR.

Definition ErrorCode_value (c : ErrorCode) : string :=
  match c with
  | NETWORK_ERROR => "NETWORK_ERROR"
  | TIMEOUT_ERROR => "TIMEOUT_ERROR"
  | CONNECTION_ERROR => "CONNECTION_ERROR"
  | UNAUTHORIZED => "UNAUTHORIZED"
  | FORBIDDEN => "FORBIDDEN"
  | SESSION_EXPIRED => "SESSION_EXPIRED"
  | INVALID_CREDENTIALS => "INVALID_CREDENTIALS"
  | VALIDATION_ERROR => "VALIDATION_ERROR"
  | INVALID_INPUT => "INVALID_INPUT"
  | MISSING_REQUIRED_FIELD => "MISSING_REQUIRED_FIELD"
  | MEDIA_UPLOAD_FAILED => "MEDIA_UPLOAD_FAILED"
  | MEDIA_TOO_LARGE => "MEDIA_TOO_LARGE"
  | INVALID_MEDIA_TYPE => "INVALID_MEDIA_TYPE"
  | MEDIA_PROCESSING_FAILED => "MEDIA_PROCESSING_FAILED"
  | DATABASE_ERROR => "DATABASE_ERROR"
  | RECORD_NOT_FOUND => "RECORD_NOT_FOUND"
  | DUPLICATE_RECORD => "DUPLICATE_RECORD"
  | RATE_LIMIT_EXCEEDED => "RATE_LIMIT_EXCEEDED"
  | CONTENT_MODERATION_FAILED => "CONTENT_MODERATION_FAILED"
  | ALREADY_REACTED => "ALREADY_REACTED"
  | UNKNOWN_ERROR => "UNKNOWN_ERROR"
  | SERVER_ERROR => "SERVER_ERROR"
  end.

(** [a === b] on two members of the enum. *)
Definition ErrorCode_eqb (a b : ErrorCode) : bool :=
  String.eqb (ErrorCode_value a) (ErrorCode_value b).

(** The members in declaration order. *)
Definition ErrorCode_members : list ErrorCode :=
  [ NETWORK_ERROR; TIMEOUT_ERROR; CONNECTION_ERROR;
    UNAUTHORIZED; FORBIDDEN; SESSION_EXPIRED; INVALID_CREDENTIALS;
    VALIDATION_ERROR; INVALID_INPUT; MISSING_REQUIRED_FIELD;
    MEDIA_UPLOAD_FAILED; MEDIA_TOO_LARGE; INVALID_MEDIA_TYPE;
    MEDIA_PROCESSING_FAILED;
    DATABASE_ERROR; RECORD_NOT_FOUND; DUPLICATE_RECORD;
    RATE_LIMIT_EXCEEDED; CONTENT_MODERATION_FAILED; ALREADY_REACTED;
    UNKNOWN_ERROR; SERVER_ERROR ].

(** The [code] field of each error interface is a union of enum members;
    one small enumeration per interface, injected into [ErrorCode]. *)
Inductive ValidationCode : Type :=
| V_VALIDATION_ERROR | V_INVALID_INPUT | V_MISSING_REQUIRED_FIELD.

Inductive NetworkCode : Type :=
| N_NETWORK_ERROR | N_TIMEOUT_ERROR | N_CONNECTION_ERROR.

Inductive AuthCode : Type :=
| A_UNAUTHORIZED | A_FORBIDDEN | A_SESSION_EXPIRED | A_INVALID_CREDENTIALS.

Inductive MediaCode : Type :=
| M_MEDIA_UPLOAD_FAILED | M_MEDIA_TOO_LARGE | M_INVALID_MEDIA_TYPE
| M_MEDIA_PROCESSING_FAILED.

Inductive DatabaseCode : Type :=
| D_DATABASE_ERROR | D_RECORD_NOT_FOUND | D_DUPLICATE_RECORD.

Inductive GenericCode : Type :=
| G_UNKNOWN_ERROR | G_SERVER_ERROR.

Definition ValidationCode_code (c : ValidationCode) : ErrorCode :=
  match c with
  | V_VALIDATION_ERROR => VALIDATION_ERROR
  | V_INVALID_INPUT => INVALID_INPUT
  | V_MISSING_REQUIRED_FIELD => MISSING_REQUIRED_FIELD
  end.

Definition NetworkCode_code (c : NetworkCode) : ErrorCode :=
  match c with
  | N_NETWORK_ERROR => NETWORK_ERROR
  | N_TIMEOUT_ERROR => TIMEOUT_ERROR
  | N_CONNECTION_ERROR => CONNECTION_ERROR
  end.

Definition AuthCode_code (c : AuthCode) : ErrorCode :=
  match c with
  | A_UNAUTHORIZED => UNAUTHORIZED
  | A_FORBIDDEN => FORBIDDEN
  | A_SESSION_EXPIRED => SESSION_EXPIRED
  | A_INVALID_CREDENTIALS => INVALID_CREDENTIALS
  end.

Definition MediaCode_code (c : MediaCode) : ErrorCode :=
  match c with
  | M_MEDIA_UPLOAD_FAILED => MEDIA_UPLOAD_FAILED
  | M_MEDIA_TOO_LARGE => MEDIA_TOO_LARGE
  | M_INVALID_MEDIA_TYPE => INVALID_MEDIA_TYPE
  | M_MEDIA_PROCESSING_FAILED => MEDIA_PROCESSING_FAILED
  end.

Definition DatabaseCode_code (c : DatabaseCode) : ErrorCode :=
  match c with
  | D_DATABASE_ERROR => DATABASE_ERROR
  | D_RECORD_NOT_FOUND => RECORD_NOT_FOUND
  | D_DUPLICATE_RECORD => DUPLICATE_RECORD
  end.

Definition GenericCode_code (c : GenericCode) : ErrorCode :=
  match c with
  | G_UNKNOWN_ERROR => UNKNOWN_ERROR
  | G_SERVER_ERROR => SERVER_ERROR
  end.

(** [Record<string, string[]>] *)
Definition Details : Type := list (string * list string).

(** [interface ValidationError extends BaseError] *)
Record ValidationError : Type := mkValidationError {
  ve_code : ValidationCode;
  ve_message : string;
  ve_field : option string;
  ve_details : option Details;
  ve_timestamp : string
}.

(** [interface NetworkError extends BaseError] *)
Record NetworkError : Type := mkNetworkError {
  ne_code : NetworkCode;
  ne_message : string;
  ne_retryable : bool;
  ne_retry_after : option Z;
  ne_timestamp : string
}.

(** [interface AuthError extends BaseError] *)
Record AuthError : Type := mkAuthError {
  ae_code : AuthCode;
  ae_message : string;
  ae_redirect_to_login : option bool;
  ae_timestamp : string
}.

(** [interface MediaError extends BaseError] *)
Record MediaError : Type := mkMediaError {
  me_code : MediaCode;
  me_message : string;
  me_max_size : option Z;
  me_allowed_types : option (list string);
  me_file_name : option string;
  me_timestamp : string
}.

(** [interface DatabaseError extends BaseError] *)
Record DatabaseError : Type := mkDatabaseError {
  de_code : DatabaseCode;
  de_message : string;
  de_query : option string;
  de_timestamp : string
}.

(** [interface RateLimitError extends BaseError]; its [code] is the
    single member [RATE_LIMIT_EXCEEDED]. *)
Record RateLimitError : Type := mkRateLimitError {
  re_message : string;
  re_retry_after : Z;
  re_limit : Z;
  re_remaining : Z;
  re_timestamp : string
}.

(** [interface GenericError extends BaseError] *)
Record GenericError : Type := mkGenericError {
  ge_code : GenericCode;
  ge_message : string;
  ge_original_error : option string;
  ge_stack_trace : option string;
  ge_timestamp : string
}.

(** [type ApiError]: the union of the seven interfaces. *)
Inductive ApiError : Type :=
| OfValidation (e : ValidationError)
| OfNetwork (e : NetworkError)
| OfAuth (e : AuthError)
| OfMedia (e : MediaError)
| OfDatabase (e : DatabaseError)
| OfRateLimit (e : RateLimitError)
| OfGeneric (e : GenericError).

(** [error.code] *)
Definition code (error : ApiError) : ErrorCode :=
  match error with
  | OfValidation e => ValidationCode_code (ve_code e)
  | OfNetwork e => NetworkCode_code (ne_code e)
  | OfAuth e => AuthCode_code (ae_code e)
  | OfMedia e => MediaCode_code (me_code e)
  | OfDatabase e => DatabaseCode_code (de_code e)
  | OfRateLimit _ => RATE_LIMIT_EXCEEDED
  | OfGeneric e => GenericCode_code (ge_code e)
  end.

(** [error.message] *)
Definition message (error : ApiError) : string :=
  match error with
  | OfValidation e => ve_message e
  | OfNetwork e => ne_message e
  | OfAuth e => ae_message e
  | OfMedia e => me_message e
  | OfDatabase e => de_message e
  | OfRateLimit e => re_message e
  | OfGeneric e => ge_message e
  end.

(** [error.retryable]; [None] is [undefined], the property being absent
    from every interface but [NetworkError]. *)
Definition retryable (error : ApiError) : option bool :=
  match error with
  | OfNetwork e => Some (ne_retryable e)
  | _ => None
  end.

(** [error.retry_after] *)
Definition retry_after (error : ApiError) : option Z :=
  match error with
  | OfNetwork e => ne_retry_after e
  | OfRateLimit e => Some (re_retry_after e)
  | _ => None
  end.

(** [type Result<T, E = ApiError>] *)
Inductive Result (T E : Type) : Type :=
| Success (data : T)
| Failure (error : E).

Arguments Success {T E} data.
Arguments Failure {T E} error.

Definition isSuccess {T E} (result : Result T E) : bool :=
  match result with
  | Success _ => true
  | Failure _ => false
  end.

Definition isError {T E} (result : Result T E) : bool :=
  match result with
  | Success _ => false
  | Failure _ => true
  end.

Definition isValidationError (error : ApiError) : bool :=
  ErrorCode_eqb (code error) VALIDATION_ERROR ||
  ErrorCode_eqb (code error) INVALID_INPUT ||
  ErrorCode_eqb (code error) MISSING_REQUIRED_FIELD.

Definition isNetworkError (error : ApiError) : bool :=
  ErrorCode_eqb (code error) NETWORK_ERROR ||
  ErrorCode_eqb (code error) TIMEOUT_ERROR ||
  ErrorCode_eqb (code error) CONNECTION_ERROR.

Definition isAuthError (error : ApiError) : bool :=
  ErrorCode_eqb (code error) UNAUTHORIZED ||
  ErrorCode_eqb (code error) FORBIDDEN ||
  ErrorCode_eqb (code error) SESSION_EXPIRED ||
  ErrorCode_eqb (code error) INVALID_CREDENTIALS.

Definition isMediaError (error : ApiError) : bool :=
  ErrorCode_eqb (code error) MEDIA_UPLOAD_FAILED ||
  ErrorCode_eqb (code error) MEDIA_TOO_LARGE ||
  ErrorCode_eqb (code error) INVALID_MEDIA_TYPE ||
  ErrorCode_eqb (code error) MEDIA_PROCESSING_FAILED.

Definition isDatabaseError (error : ApiError) : bool :=
  ErrorCode_eqb (code error) DATABASE_ERROR ||
  ErrorCode_eqb (code error) RECORD_NOT_FOUND ||
  ErrorCode_eqb (code error) DUPLICATE_RECORD.

Definition isRateLimitError (error : ApiError) : bool :=
  ErrorCode_eqb (code error) RATE_LIMIT_EXCEEDED.

(** [isRetryableError]: after [isNetworkError] the source returns the
    [retryable] property, a boolean on every [NetworkError]. *)
Definition isRetryableError (error : ApiError) : bool :=
  if isNetworkError error then
    match retryable error with
    | Some flag => flag
    | None => false
    end
  else if isRateLimitError error then true
  else ErrorCode_eqb (code error) SERVER_ERROR.

(** ** Factories.  [now] is [new Date().toISOString()] at the call; an
    omitted optional argument is [None]. *)

Definition validationError (now : string) (message : string)
    (field : option string) (details : option Details) : ValidationError :=
  {| ve_code := V_VALIDATION_ERROR;
     ve_message := message;
     ve_field := field;
     ve_details := details;
     ve_timestamp := now |}.

Definition networkError (now : string) (message : string)
    (retryable : option bool) (retry_after : option Z) : NetworkError :=
  {| ne_code := N_NETWORK_ERROR;
     ne_message := message;
     ne_retryable := match retryable with Some b => b | None => true end;
     ne_retry_after := retry_after;
     ne_timestamp := now |}.

Definition authError (now : string) (message : string)
    (code : option AuthCode) (redirect_to_login : option bool) : AuthError :=
  {| ae_code := match code with Some c => c | None => A_UNAUTHORIZED end;
     ae_message := message;
     ae_redirect_to_login :=
       Some (match redirect_to_login with Some b => b | None => false end);
     ae_timestamp := now |}.

(** The [options] argument of [mediaError]. *)
Record MediaErrorOptions : Type := mkMediaErrorOptions {
  max_size : option Z;
  allowed_types : option (list string);
  file_name : option string
}.

Definition mediaError (now : string) (message : string)
    (code : option MediaCode) (options : option MediaErrorOptions)
    : MediaError :=
  {| me_code := match code with Some c => c | None => M_MEDIA_UPLOAD_FAILED end;
     me_message := message;
     me_max_size := match options with Some o => max_size o | None => None end;
     me_allowed_types :=
       match options with Some o => allowed_types o | None => None end;
     me_file_name :=
       match options with Some o => file_name o | None => None end;
     me_timestamp := now |}.

Definition databaseError (now : string) (message : string)
    (code : option DatabaseCode) (query : option string) : DatabaseError :=
  {| de_code := match code with Some c => c | None => D_DATABASE_ERROR end;
     de_message := message;
     de_query := query;
     de_timestamp := now |}.

Definition rateLimitError (now : string) (message : string)
    (retry_after limit remaining : Z) : RateLimitError :=
  {| re_message := message;
     re_retry_after := retry_after;
     re_limit := limit;
     re_remaining := remaining;
     re_timestamp := now |}.

Definition genericError (now : string) (message : string)
    (code : option GenericCode) (original_error : option string)
    : GenericError :=
  {| ge_code := match code with Some c => c | None => G_UNKNOWN_ERROR end;
     ge_message := message;
     ge_original_error := original_error;
     ge_stack_trace := None;
     ge_timestamp := now |}.

(** [error.field] *)
Definition field (error : ApiError) : option string :=
  match error with
  | OfValidation e => ve_field e
  | _ => None
  end.

(** [error.max_size] *)
Definition error_max_size (error : ApiError) : option Z :=
  match error with
  | OfMedia e => me_max_size e
  | _ => None
  end.

(** [getErrorMessage].  A field that is absent or the empty string and
    a [max_size] that is absent or zero are falsy. *)
Definition getErrorMessage (error : ApiError) : string :=
  match (if isValidationError error then field error else None) with
  | Some (String c rest) => String c rest ++ ": " ++ message error
  | _ =>
      if isRateLimitError error then
        "Rate limit exceeded. Please try again in " ++
        match retry_after error with
        | Some seconds => Js.number_to_string seconds
        | None => "undefined"
        end ++ " seconds."
      else
        match (if isMediaError error &&
                  ErrorCode_eqb (code error) MEDIA_TOO_LARGE
               then error_max_size error else None) with
        | Some bytes =>
            if (bytes =? 0)%Z then message error
            else
              let maxSizeMB := Js.signed_megabytes_toFixed2 bytes in
              message error ++ " Maximum size: " ++ maxSizeMB ++ "MB"
        | None => message error
        end
  end.

End Api.

(* ================================================================== *)
(** * src/types/models.ts                                              *)
(* ================================================================== *)

Module Models.

(** [REACTION_TYPES], in the order of the object literal. *)
Definition REACTION_TYPES : list (string * string) :=
  [ ("HEART", "heart"); ("THUMBS_UP", "thumbs_up"); ("LAUGH", "laugh");
    ("FIRE", "fire"); ("SURPRISED", "surprised") ].

(** [type ReactionType] *)
Inductive ReactionType : Type :=
| heart | thumbs_up | laugh | fire | surprised.

Definition ReactionType_value (r : ReactionType) : string :=
  match r with
  | heart => "heart"
  | thumbs_up => "thumbs_up"
  | laugh => "laugh"
  | fire => "fire"
  | surprised => "surprised"
  end.

(** [interface UserReference] *)
Record UserReference : Type := mkUserReference {
  ref_id : string;
  ref_username : string;
  ref_avatar_url : option string
}.

(** [interface BasePost] *)
Record BasePost : Type := mkBasePost {
  id : string;
  user_id : string;
  user : UserReference;
  content : string;
  created_at : string;
  updated_at : string;
  reactions_count : Z;
  comments_count : Z
}.

(** [type Post = PostWithImage | PostWithVideo | PostWithoutMedia].  The
    media type of the first two is the literal of their interface; the
    third can have neither [media_url] nor [media_type]. *)
Inductive Post : Type :=
| PostWithImage (base : BasePost) (media_url : string)
| PostWithVideo (base : BasePost) (media_url : string)
    (thumbnail_url : option string)
| PostWithoutMedia (base : BasePost).

(** [post.media_type] *)
Definition media_type (post : Post) : option string :=
  match post with
  | PostWithImage _ _ => Some "image"
  | PostWithVideo _ _ _ => Some "video"
  | PostWithoutMedia _ => None
  end.

(** [post.media_url] *)
Definition media_url (post : Post) : option string :=
  match post with
  | PostWithImage _ url => Some url
  | PostWithVideo _ url _ => Some url
  | PostWithoutMedia _ => None
  end.

(** [x === literal] for an optional string [x]. *)
Definition is_literal (x : option string) (literal : string) : bool :=
  match x with
  | Some s => String.eqb s literal
  | None => false
  end.

(** [!x] for an optional string [x]. *)
Definition not_truthy (x : option string) : bool :=
  match x with
  | Some s => Js.falsy_string s
  | None => true
  end.

Definition isPostWithImage (post : Post) : bool :=
  is_literal (media_type post) "image".

Definition isPostWithVideo (post : Post) : bool :=
  is_literal (media_type post) "video".

Definition isPostWithoutMedia (post : Post) : bool :=
  not_truthy (media_type post) && not_truthy (media_url post).

Definition hasMedia (post : Post) : bool :=
  isPostWithImage post || isPostWithVideo post.

(** [Object.values(REACTION_TYPES).includes(value)] *)
Definition isReactionType (value : string) : bool :=
  Js.array_includes (List.map snd REACTION_TYPES) value.

(** [[0-9a-f]] *)
Definition hex_lower (c : ascii) : bool :=
  Js.in_range "0" "9" c || Js.in_range "a" "f" c.

(** [/^[0-9a-f]{8}-[0-9a-f]{4}-[0-9a-f]{4}-[0-9a-f]{4}-[0-9a-f]{12}$/i] *)
Definition uuidRegex : Js.RegExp :=
  let hex := Js.Cls (Js.ignore_case hex_lower) in
  let dash := Js.Cls (Js.ignore_case (Ascii.eqb "-")) in
  Js.mkRegExp true
    (Js.Cat (Js.Times 8 hex)
      (Js.Cat dash
        (Js.Cat (Js.Times 4 hex)
          (Js.Cat dash
            (Js.Cat (Js.Times 4 hex)
              (Js.Cat dash
                (Js.Cat (Js.Times 4 hex)
                  (Js.Cat dash (Js.Times 12 hex)))))))))
    true.

Definition isUUID (value : string) : bool := Js.test uuidRegex value.

(** [/^\d{4}-\d{2}-\d{2}T\d{2}:\d{2}:\d{2}(\.\d{3})?Z?$/] *)
Definition isoDateRegex : Js.RegExp :=
  let d := Js.Cls Js.digit in
  let lit (c : ascii) := Js.Cls (Ascii.eqb c) in
  Js.mkRegExp true
    (Js.Cat (Js.Times 4 d)
      (Js.Cat (lit "-"%char)
        (Js.Cat (Js.Times 2 d)
          (Js.Cat (lit "-"%char)
            (Js.Cat (Js.Times 2 d)
              (Js.Cat (lit "T"%char)
                (Js.Cat (Js.Times 2 d)
                  (Js.Cat (lit ":"%char)
                    (Js.Cat (Js.Times 2 d)
                      (Js.Cat (lit ":"%char)
                        (Js.Cat (Js.Times 2 d)
                          (Js.Cat
                            (Js.Opt (Js.Cat (lit "."%char) (Js.Times 3 d)))
                            (Js.Opt (lit "Z"%char))))))))))))))
    true.

Definition isISODateString (value : string) : bool :=
  Js.test isoDateRegex value.

End Models.

(* ================================================================== *)
(** * src/types/validation.ts                                          *)
(* ================================================================== *)

Module Validation.

Import Api.

(** ** Branded types.  [string & { readonly __brand: B }] is a string at
    run time; the brand exists for the type checker only. *)
Inductive Brand : Type :=
| BrandValidEmail | BrandValidUsername | BrandValidPassword
| BrandValidPostContent | BrandValidCommentContent | BrandValidMediaUrl
| BrandValidBio.

Record Branded (b : Brand) : Type := as_brand { raw : string }.

Arguments as_brand {b} raw.
Arguments raw {b} _.

Definition ValidEmail : Type := Branded BrandValidEmail.
Definition ValidUsername : Type := Branded BrandValidUsername.
Definition ValidPassword : Type := Branded BrandValidPassword.
Definition ValidPostContent : Type := Branded BrandValidPostContent.
Definition ValidCommentContent : Type := Branded BrandValidCommentContent.
Definition ValidMediaUrl : Type := Branded BrandValidMediaUrl.
Definition ValidBio : Type := Branded BrandValidBio.

(** ** [VALIDATION_CONSTRAINTS] *)
Module VALIDATION_CONSTRAINTS.

Module USERNAME.
Definition MIN_LENGTH : Z := 3.
Definition MAX_LENGTH : Z := 30.
(** [/^[a-zA-Z0-9_]+$/] *)
Definition word_char (c : ascii) : bool :=
  Js.in_range "a" "z" c || Js.in_range "A" "Z" c ||
  Js.in_range "0" "9" c || Ascii.eqb c "_".
Definition PATTERN : Js.RegExp :=
  Js.mkRegExp true (Js.Plus (Js.Cls word_char)) true.
End USERNAME.

Module PASSWORD.
Definition MIN_LENGTH : Z := 8.
Definition MAX_LENGTH : Z := 128.
Definition REQUIRE_UPPERCASE : bool := true.
Definition REQUIRE_LOWERCASE : bool := true.
Definition REQUIRE_NUMBER : bool := true.
Definition REQUIRE_SPECIAL : bool := false.
End PASSWORD.

Module POST_CONTENT.
Definition MIN_LENGTH : Z := 1.
Definition MAX_LENGTH : Z := 2000.
End POST_CONTENT.

Module COMMENT_CONTENT.
Definition MIN_LENGTH : Z := 1.
Definition MAX_LENGTH : Z := 500.
End COMMENT_CONTENT.

Module BIO.
Definition MAX_LENGTH : Z := 160.
End BIO.

Module EMAIL.
(** [[^\s@]] *)
Definition plain_char (c : ascii) : bool :=
  negb (Js.is_white_space c || Ascii.eqb c "@").
(** [/^[^\s@]+@[^\s@]+\.[^\s@]+$/] *)
Definition PATTERN : Js.RegExp :=
  Js.mkRegExp true
    (Js.Cat (Js.Plus (Js.Cls plain_char))
      (Js.Cat (Js.Cls (Ascii.eqb "@"))
        (Js.Cat (Js.Plus (Js.Cls plain_char))
          (Js.Cat (Js.Cls (Ascii.eqb "."))
            (Js.Plus (Js.Cls plain_char))))))
    true.
End EMAIL.

Module MEDIA.
Definition MAX_FILE_SIZE : Z := 10 * 1024 * 1024.
Definition ALLOWED_IMAGE_TYPES : list string :=
  ["image/jpeg"; "image/png"; "image/webp"; "image/heic"].
Definition ALLOWED_VIDEO_TYPES : list string :=
  ["video/mp4"; "video/quicktime"].
Definition MAX_VIDEO_SIZE : Z := 50 * 1024 * 1024.
End MEDIA.

End VALIDATION_CONSTRAINTS.

(** The patterns written in place in [validatePassword]. *)
Definition uppercase_pattern : Js.RegExp :=
  Js.mkRegExp false (Js.Cls (Js.in_range "A" "Z")) false.
Definition lowercase_pattern : Js.RegExp :=
  Js.mkRegExp false (Js.Cls (Js.in_range "a" "z")) false.
Definition number_pattern : Js.RegExp :=
  Js.mkRegExp false (Js.Cls Js.digit) false.
Definition special_pattern : Js.RegExp :=
  Js.mkRegExp false
    (Js.Cls (Js.one_of
      ("!@#$%^&*(),.?" ++ String (ascii_of_nat 34) ":{}|<>")))
    false.

(** [type ValidationResult<T> = Result<T, ValidationError>] *)
Definition ValidationResult (T : Type) : Type := Result T ValidationError.

(** ** Input interfaces *)

Inductive MediaType : Type := image | video.

Record CreatePostInput : Type := mkCreatePostInput {
  content : string;
  media_url : option string;
  media_type : option MediaType;
  thumbnail_url : option string
}.

Record ValidatedCreatePostInput : Type := mkValidatedCreatePostInput {
  v_content : ValidPostContent;
  v_media_url : option ValidMediaUrl;
  v_media_type : option MediaType;
  v_thumbnail_url : option ValidMediaUrl
}.

Record SignupInput : Type := mkSignupInput {
  email : string;
  username : string;
  password : string;
  password_confirmation : string
}.

Record ValidatedSignupInput : Type := mkValidatedSignupInput {
  v_email : ValidEmail;
  v_username : ValidUsername;
  v_password : ValidPassword
}.

Record LoginInput : Type := mkLoginInput {
  login_email : string;
  login_password : string
}.

Record ValidatedLoginInput : Type := mkValidatedLoginInput {
  v_login_email : ValidEmail;
  v_login_password : string
}.

Record MediaUploadInput : Type := mkMediaUploadInput {
  uri : string;
  type : string;
  name : string;
  size : Z
}.

Record ValidatedMediaUploadInput : Type := mkValidatedMediaUploadInput {
  v_uri : ValidMediaUrl;
  v_type : string;
  v_name : string;
  v_size : Z
}.

(** [s.length] as a number *)
Definition len (s : string) : Z := Z.of_nat (String.length s).

(** [!s || s.trim().length === 0] *)
Definition blank (s : string) : bool :=
  Js.falsy_string s || (len (Js.trim s) =? 0)%Z.

(** [if (o)] on an optional string: [undefined] and the empty string are
    falsy. *)
Definition truthy (o : option string) : option string :=
  match o with
  | Some (String c rest) => Some (String c rest)
  | _ => None
  end.

Section Platform.

(** [new Date().toISOString()] when the error is built. *)
Variable now : string.

(** Whether [new URL(url)] returns rather than throws.  The constructor
    belongs to the host platform, not to this repository. *)
Variable url_parses : string -> bool.

Definition validateEmail (email : string) : ValidationResult ValidEmail :=
  if blank email then
    Failure (validationError now "Email is required" (Some "email") None)
  else if negb (Js.test VALIDATION_CONSTRAINTS.EMAIL.PATTERN email) then
    Failure (validationError now "Invalid email format" (Some "email") None)
  else Success (as_brand email).

Definition validateUsername (username : string)
    : ValidationResult ValidUsername :=
  if blank username then
    Failure (validationError now "Username is required" (Some "username") None)
  else if (len username <? VALIDATION_CONSTRAINTS.USERNAME.MIN_LENGTH)%Z then
    Failure (validationError now
      ("Username must be at least " ++
       Js.number_to_string VALIDATION_CONSTRAINTS.USERNAME.MIN_LENGTH ++
       " characters")
      (Some "username") None)
  else if (len username >? VALIDATION_CONSTRAINTS.USERNAME.MAX_LENGTH)%Z then
    Failure (validationError now
      ("Username must not exceed " ++
       Js.number_to_string VALIDATION_CONSTRAINTS.USERNAME.MAX_LENGTH ++
       " characters")
      (Some "username") None)
  else if negb (Js.test VALIDATION_CONSTRAINTS.USERNAME.PATTERN username) then
    Failure (validationError now
      "Username can only contain letters, numbers, and underscores"
      (Some "username") None)
  else Success (as_brand username).

(** [errors.push(x)] when [condition] holds. *)
Definition push_if (condition : bool) (x : string) (errors : list string)
    : list string :=
  if condition then (errors ++ [x])%list else errors.

Definition validatePassword (password : string)
    : ValidationResult ValidPassword :=
  if Js.falsy_string password || (len password =? 0)%Z then
    Failure (validationError now "Password is required" (Some "password") None)
  else if (len password <? VALIDATION_CONSTRAINTS.PASSWORD.MIN_LENGTH)%Z then
    Failure (validationError now
      ("Password must be at least " ++
       Js.number_to_string VALIDATION_CONSTRAINTS.PASSWORD.MIN_LENGTH ++
       " characters")
      (Some "password") None)
  else if (len password >? VALIDATION_CONSTRAINTS.PASSWORD.MAX_LENGTH)%Z then
    Failure (validationError now
      ("Password must not exceed " ++
       Js.number_to_string VALIDATION_CONSTRAINTS.PASSWORD.MAX_LENGTH ++
       " characters")
      (Some "password") None)
  else
    let errors : list string := [] in
    let errors :=
      push_if (VALIDATION_CONSTRAINTS.PASSWORD.REQUIRE_UPPERCASE &&
               negb (Js.test uppercase_pattern password))
        "at least one uppercase letter" errors in
    let errors :=
      push_if (VALIDATION_CONSTRAINTS.PASSWORD.REQUIRE_LOWERCASE &&
               negb (Js.test lowercase_pattern password))
        "at least one lowercase letter" errors in
    let errors :=
      push_if (VALIDATION_CONSTRAINTS.PASSWORD.REQUIRE_NUMBER &&
               negb (Js.test number_pattern password))
        "at least one number" errors in
    let errors :=
      push_if (VALIDATION_CONSTRAINTS.PASSWORD.REQUIRE_SPECIAL &&
               negb (Js.test special_pattern password))
        "at least one special character" errors in
    if (Z.of_nat (List.length errors) >? 0)%Z then
      Failure (validationError now
        ("Password must contain " ++ Js.join ", " errors)
        (Some "password") None)
    else Success (as_brand password).

Definition validatePostContent (content : string)
    : ValidationResult ValidPostContent :=
  if blank content then
    Failure (validationError now "Post content is required"
      (Some "content") None)
  else if (len content <? VALIDATION_CONSTRAINTS.POST_CONTENT.MIN_LENGTH)%Z then
    Failure (validationError now
      ("Post must be at least " ++
       Js.number_to_string VALIDATION_CONSTRAINTS.POST_CONTENT.MIN_LENGTH ++
       " character")
      (Some "content") None)
  else if (len content >? VALIDATION_CONSTRAINTS.POST_CONTENT.MAX_LENGTH)%Z then
    Failure (validationError now
      ("Post must not exceed " ++
       Js.number_to_string VALIDATION_CONSTRAINTS.POST_CONTENT.MAX_LENGTH ++
       " characters")
      (Some "content") None)
  else Success (as_brand content).

Definition validateCommentContent (content : string)
    : ValidationResult ValidCommentContent :=
  if blank content then
    Failure (validationError now "Comment content is required"
      (Some "content") None)
  else if (len content <?
           VALIDATION_CONSTRAINTS.COMMENT_CONTENT.MIN_LENGTH)%Z then
    Failure (validationError now
      ("Comment must be at least " ++
       Js.number_to_string VALIDATION_CONSTRAINTS.COMMENT_CONTENT.MIN_LENGTH ++
       " character")
      (Some "content") None)
  else if (len content >?
           VALIDATION_CONSTRAINTS.COMMENT_CONTENT.MAX_LENGTH)%Z then
    Failure (validationError now
      ("Comment must not exceed " ++
       Js.number_to_string VALIDATION_CONSTRAINTS.COMMENT_CONTENT.MAX_LENGTH ++
       " characters")
      (Some "content") None)
  else Success (as_brand content).

Definition validateBio (bio : string) : ValidationResult ValidBio :=
  if (len bio >? VALIDATION_CONSTRAINTS.BIO.MAX_LENGTH)%Z then
    Failure (validationError now
      ("Bio must not exceed " ++
       Js.number_to_string VALIDATION_CONSTRAINTS.BIO.MAX_LENGTH ++
       " characters")
      (Some "bio") None)
  else Success (as_brand bio).

Definition validateMediaUrl (url : string) : ValidationResult ValidMediaUrl :=
  if blank url then
    Failure (validationError now "Media URL is required"
      (Some "media_url") None)
  else if negb (url_parses url) then
    Failure (validationError now "Invalid URL format" (Some "media_url") None)
  else Success (as_brand url).

Definition validateMediaFile (input : MediaUploadInput)
    : ValidationResult ValidatedMediaUploadInput :=
  let isVideo :=
    Js.array_includes VALIDATION_CONSTRAINTS.MEDIA.ALLOWED_VIDEO_TYPES
      (type input) in
  let maxSize :=
    if isVideo then VALIDATION_CONSTRAINTS.MEDIA.MAX_VIDEO_SIZE
    else VALIDATION_CONSTRAINTS.MEDIA.MAX_FILE_SIZE in
  if (size input >? maxSize)%Z then
    let maxSizeMB := Js.megabytes_toFixed2 maxSize in
    Failure (validationError now
      ("File size must not exceed " ++ maxSizeMB ++ "MB")
      (Some "media") None)
  else
    let allowedTypes :=
      (VALIDATION_CONSTRAINTS.MEDIA.ALLOWED_IMAGE_TYPES ++
       VALIDATION_CONSTRAINTS.MEDIA.ALLOWED_VIDEO_TYPES)%list in
    if negb (Js.array_includes allowedTypes (type input)) then
      Failure (validationError now
        "Invalid file type. Only images and videos are allowed."
        (Some "media") None)
    else
      match validateMediaUrl (uri input) with
      | Failure error => Failure error
      | Success uriData =>
          Success {| v_uri := uriData;
                     v_type := type input;
                     v_name := name input;
                     v_size := size input |}
      end.

(** [ValidationResult<true>]: the success arm carries the literal
    [true]. *)
Definition validatePasswordsMatch (password confirmation : string)
    : ValidationResult unit :=
  if negb (String.eqb password confirmation) then
    Failure (validationError now "Passwords do not match"
      (Some "password_confirmation") None)
  else Success tt.

(** ** Composite validators *)

Definition validateCreatePostInput (input : CreatePostInput)
    : ValidationResult ValidatedCreatePostInput :=
  match validatePostContent (content input) with
  | Failure error => Failure error
  | Success contentData =>
      let validated :=
        {| v_content := contentData;
           v_media_url := None;
           v_media_type := None;
           v_thumbnail_url := None |} in
      match truthy (media_url input) with
      | Some url =>
          match validateMediaUrl url with
          | Failure error => Failure error
          | Success urlData =>
              let validated :=
                {| v_content := v_content validated;
                   v_media_url := Some urlData;
                   v_media_type := media_type input;
                   v_thumbnail_url := v_thumbnail_url validated |} in
              match truthy (thumbnail_url input) with
              | Some thumbnail =>
                  match validateMediaUrl thumbnail with
                  | Failure error => Failure error
                  | Success thumbnailData =>
                      Success
                        {| v_content := v_content validated;
                           v_media_url := v_media_url validated;
                           v_media_type := v_media_type validated;
                           v_thumbnail_url := Some thumbnailData |}
                  end
              | None => Success validated
              end
          end
      | None => Success validated
      end
  end.

Definition validateSignupInput (input : SignupInput)
    : ValidationResult ValidatedSignupInput :=
  match validateEmail (email input) with
  | Failure error => Failure error
  | Success emailData =>
      match validateUsername (username input) with
      | Failure error => Failure error
      | Success usernameData =>
          match validatePassword (password input) with
          | Failure error => Failure error
          | Success passwordData =>
              match validatePasswordsMatch (password input)
                      (password_confirmation input) with
              | Failure error => Failure error
              | Success _ =>
                  Success {| v_email := emailData;
                             v_username := usernameData;
                             v_password := passwordData |}
              end
          end
      end
  end.

Definition validateLoginInput (input : LoginInput)
    : ValidationResult ValidatedLoginInput :=
  match validateEmail (login_email input) with
  | Failure error => Failure error
  | Success emailData =>
      if Js.falsy_string (login_password input) ||
         (len (login_password input) =? 0)%Z then
        Failure (validationError now "Password is required"
          (Some "password") None)
      else
        Success {| v_login_email := emailData;
                   v_login_password := login_password input |}
  end.

End Platform.

End Validation.

(* ================================================================== *)
(** * src/utils/errorHandler.ts                                        *)
(* ================================================================== *)

Module ErrorHandler.

(** [enum ErrorCode] of this file; it is not the enum of [Api]. *)
Inductive ErrorCode : Type :=
| NETWORK_ERROR | API_ERROR | TIMEOUT_ERROR
| UNAUTHORIZED | FORBIDDEN | SESSION_EXPIRED | INVALID_CREDENTIALS
| VALIDATION_ERROR | INVALID_EMAIL | INVALID_PASSWORD | CONTENT_TOO_LONG
| CONTENT_EMPTY
| MEDIA_UPLOAD_FAILED | MEDIA_TOO_LARGE | INVALID_MEDIA_TYPE
| MEDIA_COMPRESSION_FAILED
| DATABASE_ERROR | NOT_FOUND | DUPLICATE_ENTRY
| UNKNOWN_ERROR.

Definition ErrorCode_value (c : ErrorCode) : string :=
  match c with
  | NETWORK_ERROR => "NETWORK_ERROR"
  | API_ERROR => "API_ERROR"
  | TIMEOUT_ERROR => "TIMEOUT_ERROR"
  | UNAUTHORIZED => "UNAUTHORIZED"
  | FORBIDDEN => "FORBIDDEN"
  | SESSION_EXPIRED => "SESSION_EXPIRED"
  | INVALID_CREDENTIALS => "INVALID_CREDENTIALS"
  | VALIDATION_ERROR => "VALIDATION_ERROR"
  | INVALID_EMAIL => "INVALID_EMAIL"
  | INVALID_PASSWORD => "INVALID_PASSWORD"
  | CONTENT_TOO_LONG => "CONTENT_TOO_LONG"
  | CONTENT_EMPTY => "CONTENT_EMPTY"
  | MEDIA_UPLOAD_FAILED => "MEDIA_UPLOAD_FAILED"
  | MEDIA_TOO_LARGE => "MEDIA_TOO_LARGE"
  | INVALID_MEDIA_TYPE => "INVALID_MEDIA_TYPE"
  | MEDIA_COMPRESSION_FAILED => "MEDIA_COMPRESSION_FAILED"
  | DATABASE_ERROR => "DATABASE_ERROR"
  | NOT_FOUND => "NOT_FOUND"
  | DUPLICATE_ENTRY => "DUPLICATE_ENTRY"
  | UNKNOWN_ERROR => "UNKNOWN_ERROR"
  end.

Inductive ErrorSeverity : Type := INFO | WARNING | ERROR | CRITICAL.

Definition ErrorSeverity_value (s : ErrorSeverity) : string :=
  match s with
  | INFO => "INFO"
  | WARNING => "WARNING"
  | ERROR => "ERROR"
  | CRITICAL => "CRITICAL"
  end.

(** A [Date], in milliseconds since the epoch. *)
Definition Date : Type := Z.

(** [interface ErrorMetadata], over the type [V] of untyped values.  The
    keys admitted by the index signature are kept in [extra], in the
    order of the object literal.  [context] is declared as a record but
    every caller in this file passes its [context?: string]. *)
Record ErrorMetadataOf (V : Type) : Type := mkErrorMetadata {
  userId : option string;
  postId : option string;
  timestamp : option Date;
  context : option string;
  extra : list (string * V)
}.

Arguments mkErrorMetadata {V}.
Arguments userId {V}.
Arguments postId {V}.
Arguments timestamp {V}.
Arguments context {V}.
Arguments extra {V}.

(** [class AppError extends Error], over the type [V] of untyped values.
    [originalError] is declared as an [Error] but receives whatever was
    caught; the absent one is the undefined value. *)
Record AppErrorOf (V : Type) : Type := mkAppError {
  message : string;
  name : string;
  code : ErrorCode;
  severity : ErrorSeverity;
  isOperational : bool;
  metadata : ErrorMetadataOf V;
  originalError : V
}.

Arguments mkAppError {V}.
Arguments message {V}.
Arguments name {V}.
Arguments code {V}.
Arguments severity {V}.
Arguments isOperational {V}.
Arguments metadata {V}.
Arguments originalError {V}.

#[local] Set Warnings "-register-all".

(** The values a [catch] clause, an [unknown] or an [any] parameter can
    receive: primitives, plain objects with data properties, instances
    of [Error] (a message and further own properties) and instances of
    [AppError]. *)
Inductive JsValue : Type :=
| JsUndefined : JsValue
| JsNull : JsValue
| JsBoolean (b : bool) : JsValue
| JsNumber (n : Z) : JsValue
| JsString (s : string) : JsValue
| JsObject (properties : list (string * JsValue)) : JsValue
| JsError (error_message : string) (properties : list (string * JsValue))
    : JsValue
| JsAppError (error : AppErrorOf JsValue) : JsValue.

Definition ErrorMetadata : Type := ErrorMetadataOf JsValue.
Definition AppError : Type := AppErrorOf JsValue.

(** How a call finishes: with a value, or by throwing. *)
Inductive Completion (A : Type) : Type :=
| Returns (value : A)
| Throws (thrown : JsValue).

Arguments Returns {A} value.
Arguments Throws {A} thrown.

(** The [TypeError] of calling a method that the receiver lacks. *)
Definition TypeError (text : string) : JsValue := JsError text [].

(** Own data property of a plain object. *)
Fixpoint lookup (key : string) (properties : list (string * JsValue))
    : option JsValue :=
  match properties with
  | [] => None
  | (k, v) :: rest => if String.eqb k key then Some v else lookup key rest
  end.

(** The property names this file reads from caught values. *)
Inductive Key : Type := key_message | key_code | key_details.

Definition Key_name (k : Key) : string :=
  match k with
  | key_message => "message"
  | key_code => "code"
  | key_details => "details"
  end.

(** [value?.key]: undefined on [undefined] and [null], on a primitive
    (none of the three keys is a member of a primitive's prototype) and
    on an object without the key. *)
Definition optional_get (value : JsValue) (k : Key) : JsValue :=
  match value with
  | JsObject properties =>
      match lookup (Key_name k) properties with
      | Some v => v
      | None => JsUndefined
      end
  | JsError text properties =>
      match k with
      | key_message => JsString text
      | _ =>
          match lookup (Key_name k) properties with
          | Some v => v
          | None => JsUndefined
          end
      end
  | JsAppError e =>
      match k with
      | key_message => JsString (message e)
      | key_code => JsString (ErrorCode_value (code e))
      | key_details => JsUndefined
      end
  | _ => JsUndefined
  end.

(** Truthiness. *)
Definition truthy (value : JsValue) : bool :=
  match value with
  | JsUndefined | JsNull => false
  | JsBoolean b => b
  | JsNumber n => negb (n =? 0)%Z
  | JsString s => negb (Js.falsy_string s)
  | JsObject _ | JsError _ _ | JsAppError _ => true
  end.

(** [a || b] *)
Definition or_else (a b : JsValue) : JsValue := if truthy a then a else b.

(** [String(value)] *)
Definition to_String (value : JsValue) : string :=
  match value with
  | JsUndefined => "undefined"
  | JsNull => "null"
  | JsBoolean true => "true"
  | JsBoolean false => "false"
  | JsNumber n => Js.number_to_string n
  | JsString s => s
  | JsObject _ => "[object Object]"
  | JsError text _ =>
      if Js.falsy_string text then "Error" else "Error: " ++ text
  | JsAppError e =>
      if Js.falsy_string (message e) then name e
      else name e ++ ": " ++ message e
  end.

(** ['message' in error], after [error && typeof error === 'object']. *)
Definition object_with_message (value : JsValue) : bool :=
  match value with
  | JsObject properties =>
      match lookup "message" properties with
      | Some _ => true
      | None => false
      end
  | JsError _ _ | JsAppError _ => true
  | _ => false
  end.

(** [value.includes(needle)] as the sources call it on a message: the
    string method, and a [TypeError] on a receiver without it. *)
Definition call_includes (value : JsValue) (needle : string)
    : Completion bool :=
  match value with
  | JsString s => Returns (Js.includes s needle)
  | _ => Throws (TypeError "includes is not a function")
  end.

(** ** The constructor of [AppError].  It stamps the metadata and also
    writes the new error to the console, which is not modelled. *)
Definition new_AppError (now : Date) (message : string)
    (code : option ErrorCode) (severity : option ErrorSeverity)
    (isOperational : option bool) (metadata : option ErrorMetadata)
    (originalError : JsValue) : AppError :=
  {| message := message;
     name := "AppError";
     code := match code with Some c => c | None => UNKNOWN_ERROR end;
     severity := match severity with Some s => s | None => ERROR end;
     isOperational :=
       match isOperational with Some b => b | None => true end;
     metadata :=
       match metadata with
       | Some m =>
           {| userId := userId m;
              postId := postId m;
              timestamp :=
                match timestamp m with
                | Some t => Some t
                | None => Some now
                end;
              context := context m;
              extra := extra m |}
       | None =>
           {| userId := None;
              postId := None;
              timestamp := Some now;
              context := None;
              extra := [] |}
       end;
     originalError := originalError |}.

(** The object literal [{ context, k1: v1, ... }]. *)
Definition metadata_literal (context : option string)
    (extra : list (string * JsValue)) : ErrorMetadata :=
  {| userId := None;
     postId := None;
     timestamp := None;
     context := context;
     extra := extra |}.

(** [type Result<T, E = AppError>] with [success] and [failure]. *)
Inductive Result (T E : Type) : Type :=
| success (data : T)
| failure (error : E).

Arguments success {T E} data.
Arguments failure {T E} error.

Section Clock.

(** [new Date()] when an [AppError] is constructed. *)
Variable now : Date.

(** ** Factories *)

Definition networkError (message : option string) (originalError : JsValue)
    (metadata : option ErrorMetadata) : AppError :=
  new_AppError now
    (match message with Some m => m | None => "Network connection failed" end)
    (Some NETWORK_ERROR) (Some ERROR) (Some true) metadata originalError.

Definition unauthorizedError (message : option string)
    (metadata : option ErrorMetadata) : AppError :=
  new_AppError now
    (match message with
     | Some m => m
     | None => "You are not authorized to perform this action"
     end)
    (Some UNAUTHORIZED) (Some WARNING) (Some true) metadata JsUndefined.

Definition validationError (message : string)
    (metadata : option ErrorMetadata) : AppError :=
  new_AppError now message (Some VALIDATION_ERROR) (Some INFO) (Some true)
    metadata JsUndefined.

Definition mediaUploadError (message : option string)
    (originalError : JsValue) (metadata : option ErrorMetadata) : AppError :=
  new_AppError now
    (match message with Some m => m | None => "Failed to upload media" end)
    (Some MEDIA_UPLOAD_FAILED) (Some ERROR) (Some true) metadata
    originalError.

Definition databaseError (message : option string) (originalError : JsValue)
    (metadata : option ErrorMetadata) : AppError :=
  new_AppError now
    (match message with Some m => m | None => "Database operation failed" end)
    (Some DATABASE_ERROR) (Some CRITICAL) (Some true) metadata originalError.

Definition notFoundError (resource : option string)
    (metadata : option ErrorMetadata) : AppError :=
  new_AppError now
    ((match resource with Some r => r | None => "Resource" end) ++
     " not found")
    (Some NOT_FOUND) (Some INFO) (Some true) metadata JsUndefined.

(** ** Parsers *)

Definition parseError (error : JsValue) (context : option string)
    : AppError :=
  match error with
  | JsAppError e => e
  | JsError text _ =>
      new_AppError now text (Some UNKNOWN_ERROR) (Some ERROR) (Some true)
        (Some (metadata_literal context [])) error
  | JsString s =>
      new_AppError now s (Some UNKNOWN_ERROR) (Some ERROR) (Some true)
        (Some (metadata_literal context [])) JsUndefined
  | _ =>
      if object_with_message error then
        new_AppError now (to_String (optional_get error key_message))
          (Some UNKNOWN_ERROR) (Some ERROR) (Some true)
          (Some (metadata_literal context [("originalData", error)]))
          JsUndefined
      else
        new_AppError now "An unknown error occurred"
          (Some UNKNOWN_ERROR) (Some ERROR) (Some true)
          (Some (metadata_literal context [("originalData", error)]))
          JsUndefined
  end.

(** [parseSupabaseError].  The first statement after the three reads
    calls [message.includes], so a message that is neither falsy nor a
    string ends the call with a [TypeError]. *)
Definition parseSupabaseError (error : JsValue) (context : option string)
    : Completion AppError :=
  let message :=
    or_else (optional_get error key_message)
            (JsString "Database operation failed") in
  let code := optional_get error key_code in
  let details := optional_get error key_details in
  let info :=
    Some (metadata_literal context [("code", code); ("details", details)]) in
  match message with
  | JsString text =>
      Returns
        (if Js.includes text "Invalid login credentials" then
           new_AppError now "Invalid email or password"
             (Some INVALID_CREDENTIALS) (Some INFO) (Some true) info
             JsUndefined
         else if Js.includes text "JWT" || Js.includes text "token" then
           new_AppError now "Your session has expired. Please log in again."
             (Some SESSION_EXPIRED) (Some WARNING) (Some true) info
             JsUndefined
         else
           match code with
           | JsString "23505" =>
               new_AppError now "This item already exists"
                 (Some DUPLICATE_ENTRY) (Some INFO) (Some true) info
                 JsUndefined
           | JsString "23503" =>
               new_AppError now "Referenced item not found"
                 (Some NOT_FOUND) (Some ERROR) (Some true) info JsUndefined
           | _ =>
               if Js.includes text "permission denied" ||
                  Js.includes text "RLS" then
                 new_AppError now
                   "You do not have permission to perform this action"
                   (Some FORBIDDEN) (Some WARNING) (Some true) info
                   JsUndefined
               else
                 new_AppError now text (Some DATABASE_ERROR) (Some ERROR)
                   (Some true) info JsUndefined
           end)
  | _ => Throws (TypeError "message.includes is not a function")
  end.

(** [error?.message?.includes(needle)] used as a condition: a missing
    or nullish message is falsy. *)
Definition message_includes (error : JsValue) (needle : string)
    : Completion bool :=
  match optional_get error key_message with
  | JsUndefined | JsNull => Returns false
  | m => call_includes m needle
  end.

Definition parseNetworkError (error : JsValue) (context : option string)
    : Completion AppError :=
  match message_includes error "timeout" with
  | Throws thrown => Throws thrown
  | Returns true =>
      Returns
        (new_AppError now
          "Request timed out. Please check your connection and try again."
          (Some TIMEOUT_ERROR) (Some ERROR) (Some true)
          (Some (metadata_literal context [])) JsUndefined)
  | Returns false =>
      match message_includes error "Network request failed" with
      | Throws thrown => Throws thrown
      | Returns true =>
          Returns
            (new_AppError now
              "Unable to connect. Please check your internet connection."
              (Some NETWORK_ERROR) (Some ERROR) (Some true)
              (Some (metadata_literal context [])) JsUndefined)
      | Returns false =>
          Returns
            (networkError
              (Some "A network error occurred. Please try again.")
              error (Some (metadata_literal context [])))
      end
  end.

End Clock.

(** ** User-friendly messages *)

Definition or_string (a b : string) : string :=
  if Js.falsy_string a then b else a.

(** [defaultMessage] absent is the undefined value, which is falsy like
    the empty string; [None] stands for it. *)
Definition getUserFriendlyMessage (code : ErrorCode)
    (defaultMessage : option string) : string :=
  let default := match defaultMessage with Some m => m | None => EmptyString end in
  let entry :=
    match code with
    | NETWORK_ERROR =>
        "Unable to connect. Please check your internet connection and try again."
    | API_ERROR => "Something went wrong. Please try again later."
    | TIMEOUT_ERROR => "Request timed out. Please try again."
    | UNAUTHORIZED => "Please log in to continue."
    | FORBIDDEN => "You do not have permission to perform this action."
    | SESSION_EXPIRED => "Your session has expired. Please log in again."
    | INVALID_CREDENTIALS => "Invalid email or password. Please try again."
    | VALIDATION_ERROR =>
        or_string default "Please check your input and try again."
    | INVALID_EMAIL => "Please enter a valid email address."
    | INVALID_PASSWORD => "Password must be at least 8 characters long."
    | CONTENT_TOO_LONG => "Your content is too long. Please shorten it."
    | CONTENT_EMPTY => "Please enter some content."
    | MEDIA_UPLOAD_FAILED => "Failed to upload media. Please try again."
    | MEDIA_TOO_LARGE => "File is too large. Please choose a smaller file."
    | INVALID_MEDIA_TYPE =>
        "Invalid file type. Please choose an image or video."
    | MEDIA_COMPRESSION_FAILED =>
        "Failed to process media. Please try a different file."
    | DATABASE_ERROR => "Something went wrong. Please try again."
    | NOT_FOUND => "Item not found."
    | DUPLICATE_ENTRY => "This item already exists."
    | UNKNOWN_ERROR =>
        or_string default "An unexpected error occurred. Please try again."
    end in
  or_string entry (or_string default "An error occurred. Please try again.").

(** [AppError.getUserMessage] *)
Definition getUserMessage (e : AppError) : string :=
  getUserFriendlyMessage (code e) (Some (message e)).

(** ** The wrapper of asynchronous functions *)



End ErrorHandler.

(* ================================================================== *)
(** * src/types/api.ts: the conversion of caught values                *)
(* ================================================================== *)

Module ApiConversion.

Import ErrorHandler.

(** What [toApiError] returns: the value it was given, under the type
    assertion [error as ApiError] that checks nothing, or a generic
    error it builds. *)
Inductive Converted : Type :=
| as_given (value : JsValue)
| built (error : Api.GenericError).

(** [typeof error === 'object' && error !== null && 'code' in error].
    Every [AppError] has a [code]. *)
Definition object_with_code (value : JsValue) : bool :=
  match value with
  | JsObject properties | JsError _ properties =>
      match lookup "code" properties with
      | Some _ => true
      | None => false
      end
  | JsAppError _ => true
  | _ => false
  end.

(** [error.stack] of an instance of [Error]: a string when the platform
    recorded one. *)
Definition stack_of (properties : list (string * JsValue)) : option string :=
  match lookup "stack" properties with
  | Some (JsString trace) => Some trace
  | _ => None
  end.

(** [toApiError]; [now] is [new Date().toISOString()] at the call. *)
Definition toApiError (now : string) (error : JsValue) : Converted :=
  if object_with_code error then as_given error
  else
    match error with
    | JsError text properties =>
        built (Api.genericError now text (Some Api.G_UNKNOWN_ERROR)
                 (stack_of properties))
    | _ =>
        built (Api.genericError now "An unknown error occurred"
                 (Some Api.G_UNKNOWN_ERROR) None)
    end.

End ApiConversion.

(* ================================================================== *)
(** * src/hooks/useErrorHandler.ts                                     *)
(* ================================================================== *)

Module Hooks.

Import ErrorHandler.

(** [interface ErrorState] *)
Record ErrorState : Type := mkErrorState {
  error : option AppError;
  hasError : bool
}.

(** What a button of an alert does when pressed. *)
Inductive Press : Type :=
| press_clearError
| press_clearError_then_retry.

Record AlertButton : Type := mkAlertButton {
  text : string;
  style : option string;
  onPress : Press
}.

(** One call of [Alert.alert(title, message, buttons)]. *)
Record AlertCall : Type := mkAlertCall {
  alert_title : string;
  alert_message : string;
  alert_buttons : list AlertButton
}.

(** [interface ErrorHandlerOptions].  A callback is a function that
    returns or throws. *)
Record ErrorHandlerOptions : Type := mkErrorHandlerOptions {
  showAlert : option bool;
  logError : option bool;
  context : option string;
  onError : option (AppError -> Completion unit);
  retryable : option bool
}.

(** [options = {}] *)
Definition no_options : ErrorHandlerOptions :=
  {| showAlert := None; logError := None; context := None;
     onError := None; retryable := None |}.

(** [x = d] in a destructuring pattern. *)
Definition default {A : Type} (d : A) (o : option A) : A :=
  match o with
  | Some x => x
  | None => d
  end.

(** [getErrorTitle]: a partial table, ['Error'] for the other codes. *)
Definition getErrorTitle (code : ErrorCode) : string :=
  match code with
  | NETWORK_ERROR => "Connection Error"
  | TIMEOUT_ERROR => "Request Timeout"
  | UNAUTHORIZED => "Authentication Required"
  | FORBIDDEN => "Access Denied"
  | SESSION_EXPIRED => "Session Expired"
  | INVALID_CREDENTIALS => "Invalid Credentials"
  | VALIDATION_ERROR => "Validation Error"
  | MEDIA_UPLOAD_FAILED => "Upload Failed"
  | MEDIA_TOO_LARGE => "File Too Large"
  | DATABASE_ERROR => "Database Error"
  | NOT_FOUND => "Not Found"
  | _ => "Error"
  end.

Section AsyncOperation.

(** The type [T] of the value the operation produces. *)
Variable T : Type.

(** [new Date()] when an [AppError] is constructed. *)
Variable now : Date.

(** The cells of [useAsyncOperation] and of the [useErrorHandler] it
    owns, and the alerts shown so far. *)
Record HookState : Type := mkHookState {
  loading : bool;
  data : option T;
  errorState : ErrorState;
  alerts : list AlertCall
}.

(** The state before the first call: [useState(false)], [useState(null)]
    and [{ error: null, hasError: false }]. *)
Definition initial : HookState :=
  {| loading := false;
     data := None;
     errorState := {| error := None; hasError := false |};
     alerts := [] |}.

(** Code that updates the cells and returns or throws.  What was
    written before a throw stays written. *)
Definition M (A : Type) : Type := HookState -> Completion A * HookState.

Definition ret {A : Type} (a : A) : M A := fun st => (Returns a, st).

Definition throw {A : Type} (v : JsValue) : M A := fun st => (Throws v, st).

Definition bind {A B : Type} (m : M A) (k : A -> M B) : M B :=
  fun st =>
    match m st with
    | (Returns a, st') => k a st'
    | (Throws v, st') => (Throws v, st')
    end.

(** The completion of a call that does not touch the cells; [await] of
    a settled promise. *)
Definition lift {A : Type} (c : Completion A) : M A := fun st => (c, st).

(** [try { body } catch (err) { handler(err) }] *)
Definition try_catch {A : Type} (body : M A) (handler : JsValue -> M A)
    : M A :=
  fun st =>
    match body st with
    | (Returns a, st') => (Returns a, st')
    | (Throws v, st') => handler v st'
    end.

(** [try { body } finally { final }] *)
Definition try_finally {A : Type} (body : M A) (final : M unit) : M A :=
  fun st =>
    match body st with
    | (outcome, st') =>
        match final st' with
        | (Returns _, st'') => (outcome, st'')
        | (Throws v, st'') => (Throws v, st'')
        end
    end.

Notation "x <- m ;; k" := (bind m (fun x => k))
  (at level 61, m at next level, right associativity).
Notation "m ;; k" := (bind m (fun _ => k))
  (at level 61, right associativity).

(** [if (callback) callback(argument)] *)
Definition call_if_given {A : Type}
    (callback : option (A -> Completion unit)) (argument : A) : M unit :=
  match callback with
  | Some f => lift (f argument)
  | None => ret tt
  end.

Definition setLoading (value : bool) : M unit :=
  fun st =>
    (Returns tt,
     {| loading := value; data := data st;
        errorState := errorState st; alerts := alerts st |}).

Definition setData (value : option T) : M unit :=
  fun st =>
    (Returns tt,
     {| loading := loading st; data := value;
        errorState := errorState st; alerts := alerts st |}).

Definition setErrorState (value : ErrorState) : M unit :=
  fun st =>
    (Returns tt,
     {| loading := loading st; data := data st;
        errorState := value; alerts := alerts st |}).

Definition Alert_alert (title message : string)
    (buttons : list AlertButton) : M unit :=
  fun st =>
    (Returns tt,
     {| loading := loading st; data := data st;
        errorState := errorState st;
        alerts := (alerts st ++
                   [ {| alert_title := title;
                        alert_message := message;
                        alert_buttons := buttons |} ])%list |}).

(** ** [useErrorHandler] *)

Definition clearError : M unit :=
  setErrorState {| error := None; hasError := false |}.

(** [onRetry] given or not is all the body looks at. *)
Definition showErrorAlert (error : AppError) (retryable : option bool)
    (onRetry : bool) : M unit :=
  let retryable := default false retryable in
  let buttons :=
    if retryable && onRetry then
      [ {| text := "Cancel"; style := Some "cancel";
           onPress := press_clearError |};
        {| text := "Retry"; style := None;
           onPress := press_clearError_then_retry |} ]
    else
      [ {| text := "OK"; style := None; onPress := press_clearError |} ] in
  Alert_alert (getErrorTitle (code error)) (getUserMessage error) buttons.

Definition handleError (error : JsValue) (options : ErrorHandlerOptions)
    : M unit :=
  let showAlert := default false (showAlert options) in
  let context := context options in
  let onError := onError options in
  let retryable := default false (retryable options) in
  let appError := parseError now error context in
  setErrorState {| error := Some appError; hasError := true |} ;;
  call_if_given onError appError ;;
  if showAlert then showErrorAlert appError (Some retryable) false
  else ret tt.

Definition handleSupabaseError (error : JsValue)
    (options : ErrorHandlerOptions) : M unit :=
  let showAlert := default false (showAlert options) in
  let context := context options in
  let onError := onError options in
  let retryable := default false (retryable options) in
  appError <- lift (parseSupabaseError now error context) ;;
  setErrorState {| error := Some appError; hasError := true |} ;;
  call_if_given onError appError ;;
  if showAlert then showErrorAlert appError (Some retryable) false
  else ret tt.

Definition handleNetworkError (error : JsValue)
    (options : ErrorHandlerOptions) : M unit :=
  let showAlert := default false (showAlert options) in
  let context := context options in
  let onError := onError options in
  let retryable := default true (retryable options) in
  appError <- lift (parseNetworkError now error context) ;;
  setErrorState {| error := Some appError; hasError := true |} ;;
  call_if_given onError appError ;;
  if showAlert then showErrorAlert appError (Some retryable) false
  else ret tt.

(** ** [useAsyncOperation] *)

(** [interface UseAsyncOperationOptions<T> extends ErrorHandlerOptions] *)
Record UseAsyncOperationOptions : Type := mkUseAsyncOperationOptions {
  base : ErrorHandlerOptions;
  onSuccess : option (T -> Completion unit)
}.

(** [execute(...args)].  [operation args] is how the promise returned by
    the operation settles (or what the call throws before returning
    one): [Returns] for a fulfilled promise, [Throws] for a rejection. *)
Definition execute (operation : list JsValue -> Completion T)
    (options : UseAsyncOperationOptions) (args : list JsValue) : M unit :=
  let onSuccess := onSuccess options in
  let showAlert := default false (showAlert (base options)) in
  let context := context (base options) in
  let retryable := default true (retryable (base options)) in
  setLoading true ;;
  clearError ;;
  try_finally
    (try_catch
       (result <- lift (operation args) ;;
        setData (Some result) ;;
        call_if_given onSuccess result)
       (fun err =>
          handleError err
            {| showAlert := Some showAlert;
               logError := None;
               context := context;
               onError := None;
               retryable := Some retryable |}))
    (setLoading false).

Definition reset : M unit :=
  setLoading false ;;
  setData None ;;
  clearError.

End AsyncOperation.

(** ** [useFormErrors] *)

(** The object [fieldErrors]: its own properties, each key once.  The
    order in which an object enumerates its keys is not modelled. *)
Definition FieldErrors : Type := list (string * string).



(** [useState<Record<string, string>>({})] *)
Definition no_field_errors : FieldErrors := [].






End Hooks.

(* ================================================================== *)
(** * The error boundary component                                     *)
(* ================================================================== *)

Module Boundary.

Import ErrorHandler.

(** React's [ErrorInfo] *)
Record ErrorInfo : Type := mkErrorInfo {
  componentStack : string
}.

(** [interface State].  A thrown value is whatever was thrown. *)
Record State : Type := mkState {
  hasError : bool;
  error : option JsValue;
  errorInfo : option ErrorInfo
}.

(** [interface Props]; what the callbacks and the fallback compute is
    left to them, a callback returns or throws. *)
Record Props : Type := mkProps {
  has_fallback : bool;
  onError : option (JsValue -> ErrorInfo -> Completion unit);
  onReset : option (unit -> Completion unit)
}.

(** What [render] returns. *)
Inductive Rendered : Type :=
| children
| custom_fallback (error : JsValue) (errorInfo : option ErrorInfo)
| default_fallback (error : JsValue) (errorInfo : option ErrorInfo).

(** The state set by the constructor. *)
Definition initial : State :=
  {| hasError := false; error := None; errorInfo := None |}.

(** The component's state and the errors that the constructor of
    [AppError] wrote to the console. *)
Record World : Type := mkWorld {
  state : State;
  console : list AppError
}.

(** [getDerivedStateFromError(error)], merged into the state by React:
    [errorInfo] is not part of the update. *)
Definition getDerivedStateFromError (thrown : JsValue) (st : State) : State :=
  {| hasError := true; error := Some thrown; errorInfo := errorInfo st |}.

(** [error.message] read without [?.]: a [TypeError] on [undefined]
    and [null]. *)
Definition get_message (thrown : JsValue) : Completion JsValue :=
  match thrown with
  | JsUndefined | JsNull =>
      Throws (TypeError "Cannot read properties of undefined")
  | _ => Returns (optional_get thrown key_message)
  end.

(** The message that [super(message)] installs: the string form of its
    argument, and the empty string when there is none. *)
Definition message_of_argument (argument : JsValue) : string :=
  match argument with
  | JsUndefined => EmptyString
  | _ => to_String argument
  end.

(** [componentDidCatch(error, errorInfo)]; [now] is [new Date()]. *)
Definition componentDidCatch (now : Date) (props : Props)
    (thrown : JsValue) (info : ErrorInfo) (w : World)
    : Completion unit * World :=
  match get_message thrown with
  | Throws t => (Throws t, w)
  | Returns m =>
      let appError :=
        new_AppError now (message_of_argument m) (Some UNKNOWN_ERROR)
          (Some CRITICAL) (Some false)
          (Some (metadata_literal None
                   [ ("componentStack", JsString (componentStack info));
                     ("errorInfo",
                      JsObject
                        [("componentStack",
                          JsString (componentStack info))]) ]))
          thrown in
      let w' :=
        {| state := {| hasError := hasError (state w);
                       error := error (state w);
                       errorInfo := Some info |};
           console := (console w ++ [appError])%list |} in
      match onError props with
      | Some callback => (callback thrown info, w')
      | None => (Returns tt, w')
      end
  end.

(** What React does with a value thrown while the children render:
    the derived state first, then [componentDidCatch]. *)
Definition catch (now : Date) (props : Props) (thrown : JsValue)
    (info : ErrorInfo) (w : World) : Completion unit * World :=
  componentDidCatch now props thrown info
    {| state := getDerivedStateFromError thrown (state w);
       console := console w |}.

(** [handleReset] *)
Definition handleReset (props : Props) (w : World)
    : Completion unit * World :=
  match
    match onReset props with
    | Some callback => callback tt
    | None => Returns tt
    end
  with
  | Throws t => (Throws t, w)
  | Returns _ => (Returns tt, {| state := initial; console := console w |})
  end.

(** [render] *)
Definition render (props : Props) (st : State) : Rendered :=
  match (if hasError st then error st else None) with
  | Some thrown =>
      if truthy thrown then
        if has_fallback props then custom_fallback thrown (errorInfo st)
        else default_fallback thrown (errorInfo st)
      else children
  | None => children
  end.

End Boundary.

(* ================================================================== *)
(** * Vocabulary of the properties                                     *)
(* ================================================================== *)

Module Properties.

Import Api Validation.

(** The twenty kinds that the specification lists for its closed
    enumeration of error kinds, each as the member of [Api.ErrorCode]
    that it names, in the order of the specification: network, timeout,
    connection, unauthorized, forbidden, session-expired,
    invalid-credentials, validation, invalid-input, missing-field,
    media-upload-failed, media-too-large, invalid-media-type,
    media-processing-failed, database, not-found, duplicate,
    rate-limited, unknown, server. *)
Definition listed_kinds : list ErrorCode :=
  [ NETWORK_ERROR; TIMEOUT_ERROR; CONNECTION_ERROR;
    UNAUTHORIZED; FORBIDDEN; SESSION_EXPIRED; INVALID_CREDENTIALS;
    VALIDATION_ERROR; INVALID_INPUT; MISSING_REQUIRED_FIELD;
    MEDIA_UPLOAD_FAILED; MEDIA_TOO_LARGE; INVALID_MEDIA_TYPE;
    MEDIA_PROCESSING_FAILED;
    DATABASE_ERROR; RECORD_NOT_FOUND; DUPLICATE_RECORD;
    RATE_LIMIT_EXCEEDED; UNKNOWN_ERROR; SERVER_ERROR ].

(** The arms of a result, as options. *)
Definition data_of {T E : Type} (result : Result T E) : option T :=
  match result with
  | Success data => Some data
  | Failure _ => None
  end.

Definition error_of {T E : Type} (result : Result T E) : option E :=
  match result with
  | Success _ => None
  | Failure error => Some error
  end.

(** The field validators that take one string and brand it. *)
Inductive StringValidator : Type :=
| the_validateEmail
| the_validateUsername
| the_validatePassword
| the_validatePostContent
| the_validateCommentContent
| the_validateBio
| the_validateMediaUrl.

(** The string carried by the success arm of [v(s)], read back as a raw
    string; [None] on the failure arm. *)
Definition validated_raw (now : string) (url_parses : string -> bool)
    (v : StringValidator) (s : string) : option string :=
  match v with
  | the_validateEmail => option_map raw (data_of (validateEmail now s))
  | the_validateUsername => option_map raw (data_of (validateUsername now s))
  | the_validatePassword => option_map raw (data_of (validatePassword now s))
  | the_validatePostContent =>
      option_map raw (data_of (validatePostContent now s))
  | the_validateCommentContent =>
      option_map raw (data_of (validateCommentContent now s))
  | the_validateBio => option_map raw (data_of (validateBio now s))
  | the_validateMediaUrl =>
      option_map raw (data_of (validateMediaUrl now url_parses s))
  end.

(** A call of one of the nine field validators, with its arguments. *)
Inductive FieldCall : Type :=
| call_validateEmail (email : string)
| call_validateUsername (username : string)
| call_validatePassword (password : string)
| call_validatePostContent (content : string)
| call_validateCommentContent (content : string)
| call_validateBio (bio : string)
| call_validateMediaUrl (url : string)
| call_validateMediaFile (input : MediaUploadInput)
| call_validatePasswordsMatch (password confirmation : string).

(** The error carried by the failure arm of a call; [None] on the
    success arm. *)
Definition failure_of (now : string) (url_parses : string -> bool)
    (call : FieldCall) : option ValidationError :=
  match call with
  | call_validateEmail s => error_of (validateEmail now s)
  | call_validateUsername s => error_of (validateUsername now s)
  | call_validatePassword s => error_of (validatePassword now s)
  | call_validatePostContent s => error_of (validatePostContent now s)
  | call_validateCommentContent s => error_of (validateCommentContent now s)
  | call_validateBio s => error_of (validateBio now s)
  | call_validateMediaUrl s => error_of (validateMediaUrl now url_parses s)
  | call_validateMediaFile input =>
      error_of (validateMediaFile now url_parses input)
  | call_validatePasswordsMatch p c => error_of (validatePasswordsMatch now p c)
  end.

(** The field names under which each validator reports: its own field,
    and for a media file also the field of the URI check it delegates
    to [validateMediaUrl]. *)
Definition field_names (call : FieldCall) : list string :=
  match call with
  | call_validateEmail _ => ["email"]
  | call_validateUsername _ => ["username"]
  | call_validatePassword _ => ["password"]
  | call_validatePostContent _ => ["content"]
  | call_validateCommentContent _ => ["content"]
  | call_validateBio _ => ["bio"]
  | call_validateMediaUrl _ => ["media_url"]
  | call_validateMediaFile _ => ["media"; "media_url"]
  | call_validatePasswordsMatch _ _ => ["password_confirmation"]
  end.

(** The error for a file over the image limit. *)
Definition image_size_error (now : string) : ValidationError :=
  validationError now "File size must not exceed 10.00MB" (Some "media") None.

(** The error for a type outside both allow-lists. *)
Definition file_type_error (now : string) : ValidationError :=
  validationError now
    "Invalid file type. Only images and videos are allowed."
    (Some "media") None.

(** A backend failure object [{ code, message }]. *)
Definition backend_failure (code message : string) : ErrorHandler.JsValue :=
  ErrorHandler.JsObject
    [ ("code", ErrorHandler.JsString code);
      ("message", ErrorHandler.JsString message) ].

(** The text that [parseSupabaseError] reads as the message of [error]:
    the [message] property when it is a string, and no text when the
    property is absent or falsy (the default message is used then).
    [None] when the property is a truthy value that is not a string: the
    call throws on it. *)
Definition supabase_message_text (error : ErrorHandler.JsValue)
    : option string :=
  match ErrorHandler.optional_get error ErrorHandler.key_message with
  | ErrorHandler.JsString text => Some text
  | other => if ErrorHandler.truthy other then None else Some EmptyString
  end.

(** The text that [parseNetworkError] searches: the [message] property
    when it is a string, and no text when it is undefined or null.
    [None] for any other value: the call throws on it. *)
Definition network_message_text (error : ErrorHandler.JsValue)
    : option string :=
  match ErrorHandler.optional_get error ErrorHandler.key_message with
  | ErrorHandler.JsString text => Some text
  | ErrorHandler.JsUndefined | ErrorHandler.JsNull => Some EmptyString
  | _ => None
  end.

(** The three phrases that [parseSupabaseError] looks for in the message
    before it looks at the code. *)
Definition names_authentication (message : string) : bool :=
  Js.includes message "Invalid login credentials" ||
  Js.includes message "JWT" || Js.includes message "token".

(** The error slot is clear. *)
Definition clear : Hooks.ErrorState :=
  {| Hooks.error := None; Hooks.hasError := false |}.

(** The error slot holds [e]. *)
Definition holding (e : ErrorHandler.AppError) : Hooks.ErrorState :=
  {| Hooks.error := Some e; Hooks.hasError := true |}.

End Properties.

Module HookProperties.

Import ErrorHandler Hooks.

(** One call of an operation that [useAsyncOperation], or the
    [useErrorHandler] it owns, hands to a component. *)
Inductive HookCall (T : Type) : Type :=
| call_clearError
| call_handleError (error : JsValue) (options : ErrorHandlerOptions)
| call_handleSupabaseError (error : JsValue) (options : ErrorHandlerOptions)
| call_handleNetworkError (error : JsValue) (options : ErrorHandlerOptions)
| call_execute (operation : list JsValue -> Completion T)
    (options : UseAsyncOperationOptions T) (args : list JsValue)
| call_reset.

Arguments call_clearError {T}.
Arguments call_handleError {T} error options.
Arguments call_handleSupabaseError {T} error options.
Arguments call_handleNetworkError {T} error options.
Arguments call_execute {T} operation options args.
Arguments call_reset {T}.

Definition run_call {T : Type} (now : Date) (call : HookCall T) : M T unit :=
  match call with
  | call_clearError => clearError T
  | call_handleError error options => handleError T now error options
  | call_handleSupabaseError error options =>
      handleSupabaseError T now error options
  | call_handleNetworkError error options =>
      handleNetworkError T now error options
  | call_execute operation options args =>
      execute T now operation options args
  | call_reset => reset T
  end.

(** The cells after a sequence of calls.  A value that a call throws
    goes to the caller of that call; the cells stay as the call left
    them. *)
Fixpoint run_calls {T : Type} (now : Date) (calls : list (HookCall T))
    (st : HookState T) : HookState T :=
  match calls with
  | [] => st
  | call :: rest => run_calls now rest (snd (run_call now call st))
  end.

(** [hasError] says whether there is an error. *)
Definition slot_consistent (slot : ErrorState) : bool :=
  Bool.eqb (hasError slot)
    (match error slot with Some _ => true | None => false end).

(** The single button of an alert without retry. *)
Definition ok_button : AlertButton :=
  {| text := "OK"; style := None; onPress := press_clearError |}.

(** The alert that reports [e] without offering a retry. *)
Definition plain_alert (e : AppError) : AlertCall :=
  {| alert_title := getErrorTitle (code e);
     alert_message := getUserMessage e;
     alert_buttons := [ok_button] |}.

End HookProperties.

Module ModelProperties.

(** A hexadecimal digit in either case. *)
Definition hex_digit (c : ascii) : bool :=
  Js.in_range "0" "9" c || Js.in_range "a" "f" c || Js.in_range "A" "F" c.

(** [s] consists of [n] code units of the class [p]. *)
Definition run_of (p : ascii -> bool) (n : nat) (s : string) : Prop :=
  String.length s = n /\ Js.every p s = true.


End ModelProperties.

(* ================================================================== *)
(** * Facts about the JavaScript primitives                            *)
(* ================================================================== *)

Section RegexFacts.

Import Js.

Lemma append_empty_inv (s1 s2 : string) :
  s1 ++ s2 = EmptyString -> s1 = EmptyString /\ s2 = EmptyString.
Proof.
  destruct s1 as [|c s1]; simpl; intros H.
  - split; [reflexivity | exact H].
  - discriminate H.
Qed.

Lemma append_empty_r (s : string) : s ++ EmptyString = s.
Proof.
  induction s as [|c s IH]; simpl; [reflexivity | now rewrite IH].
Qed.

Lemma words_empty_nullable (r : regex) (s : string) :
  words r s -> s = EmptyString -> nullable r = true.
Proof.
  induction 1 as [ | p c Hp | r1 r2 s1 s2 H1 IH1 H2 IH2 | r1 r2 s H IH
                 | r1 r2 s H IH | r | r s1 s2 H1 IH1 H2 IH2 ];
    intros Hs; simpl; try reflexivity.
  - discriminate Hs.
  - apply append_empty_inv in Hs as [E1 E2].
    now rewrite IH1, IH2.
  - now rewrite IH.
  - rewrite IH by assumption. apply orb_true_r.
Qed.

Lemma nullable_words_empty (r : regex) :
  nullable r = true -> words r EmptyString.
Proof.
  induction r as [ | | p | r1 IH1 r2 IH2 | r1 IH1 r2 IH2 | r IH ];
    simpl; intros H; try discriminate H.
  - constructor.
  - apply andb_prop in H as [H1 H2].
    change EmptyString with (EmptyString ++ EmptyString).
    constructor; auto.
  - apply orb_prop in H as [H | H].
    + apply words_Alt_l; auto.
    + apply words_Alt_r; auto.
  - constructor.
Qed.

Lemma nullable_spec (r : regex) :
  nullable r = true <-> words r EmptyString.
Proof.
  split.
  - apply nullable_words_empty.
  - intros H. now apply (words_empty_nullable r EmptyString).
Qed.

(** A non-empty word of [r*] starts with a non-empty word of [r]. *)
Lemma words_Star_cons (r : regex) (s : string) :
  words (Star r) s ->
  forall c rest, s = String c rest ->
  exists s1 s2,
    rest = s1 ++ s2 /\ words r (String c s1) /\ words (Star r) s2.
Proof.
  intros H.
  remember (Star r) as r' eqn:Er.
  induction H as [ | p c Hp | r1 r2 s1 s2 H1 IH1 H2 IH2 | r1 r2 s H IH
                 | r1 r2 s H IH | r0 | r0 s1 s2 H1 IH1 H2 IH2 ];
    try discriminate Er; intros c0 rest Hs.
  - discriminate Hs.
  - injection Er as ->.
    destruct s1 as [|c1 s1]; simpl in Hs.
    + apply (IH2 eq_refl c0 rest Hs).
    + injection Hs as Hc Hrest. subst c1 rest.
      exists s1, s2. auto.
Qed.

Lemma words_Cat_cons (r1 r2 : regex) (c : ascii) (rest : string) :
  words (Cat r1 r2) (String c rest) ->
  (exists s1 s2, rest = s1 ++ s2 /\ words r1 (String c s1) /\ words r2 s2)
  \/ (words r1 EmptyString /\ words r2 (String c rest)).
Proof.
  intros H. inversion H as [ | | ra rb s1 s2 H1 H2 Era Es | | | | ]; subst.
  destruct s1 as [|c1 s1]; simpl in Es.
  - right. subst s2. auto.
  - injection Es as Hc Hrest. subst c1 rest. left. exists s1, s2. auto.
Qed.

Lemma deriv_spec (r : regex) :
  forall c s, words (deriv c r) s <-> words r (String c s).
Proof.
  induction r as [ | | p | r1 IH1 r2 IH2 | r1 IH1 r2 IH2 | r IH ];
    intros c s; simpl.
  - split; intros H; inversion H.
  - split; intros H; inversion H.
  - destruct (p c) eqn:Hp; split; intros H.
    + inversion H; subst. now constructor.
    + inversion H; subst. constructor.
    + inversion H.
    + inversion H; subst. congruence.
  - assert (Hcat : forall t,
              words (Cat (deriv c r1) r2) t ->
              words (Cat r1 r2) (String c t)).
    { intros t H.
      inversion H as [ | | ra rb s1 s2 H1 H2 Era Es | | | | ]; subst.
      apply IH1 in H1.
      change (String c (s1 ++ s2)) with (String c s1 ++ s2).
      now constructor. }
    destruct (nullable r1) eqn:Hn; split; intros H.
    + inversion H; subst.
      * now apply Hcat.
      * change (String c s) with (EmptyString ++ String c s).
        constructor.
        -- now apply nullable_spec.
        -- now apply IH2.
    + apply words_Cat_cons in H as [(s1 & s2 & -> & H1 & H2) | [H1 H2]].
      * apply words_Alt_l. constructor; [now apply IH1 | assumption].
      * apply words_Alt_r. now apply IH2.
    + now apply Hcat.
    + apply words_Cat_cons in H as [(s1 & s2 & -> & H1 & H2) | [H1 H2]].
      * constructor; [now apply IH1 | assumption].
      * apply nullable_spec in H1. congruence.
  - split; intros H.
    + inversion H; subst.
      * apply words_Alt_l. now apply IH1.
      * apply words_Alt_r. now apply IH2.
    + inversion H; subst.
      * apply words_Alt_l. now apply IH1.
      * apply words_Alt_r. now apply IH2.
  - split; intros H.
    + inversion H as [ | | ra rb s1 s2 H1 H2 Era Es | | | | ]; subst.
      apply IH in H1.
      change (String c (s1 ++ s2)) with (String c s1 ++ s2).
      now constructor.
    + destruct (words_Star_cons r _ H c s eq_refl)
        as (s1 & s2 & -> & H1 & H2).
      constructor; [now apply IH | assumption].
Qed.

(** The matcher decides membership. *)
Lemma matches_spec (s : string) :
  forall r, matches r s = true <-> words r s.
Proof.
  induction s as [|c s IH]; intros r; simpl.
  - apply nullable_spec.
  - rewrite IH. apply deriv_spec.
Qed.

End RegexFacts.

(* ================================================================== *)
(** * The error taxonomy ([Api])                                       *)
(* ================================================================== *)

Section ApiFacts.

Import Api Properties.

Lemma ErrorCode_eqb_eq (a b : ErrorCode) :
  ErrorCode_eqb a b = true <-> a = b.
Proof.
  split.
  - destruct a, b; intros H; try reflexivity; discriminate H.
  - intros ->. destruct b; reflexivity.
Qed.

Lemma ErrorCode_value_injective (a b : ErrorCode) :
  ErrorCode_value a = ErrorCode_value b -> a = b.
Proof.
  intros H. apply ErrorCode_eqb_eq. unfold ErrorCode_eqb.
  rewrite H. apply String.eqb_refl.
Qed.

Lemma ErrorCode_members_complete (c : ErrorCode) : In c ErrorCode_members.
Proof.
  destruct c; simpl; tauto.
Qed.

Lemma ErrorCode_members_NoDup : NoDup ErrorCode_members.
Proof.
  unfold ErrorCode_members.
  repeat (constructor; [ simpl; intuition discriminate | ]).
  constructor.
Qed.

Lemma listed_kinds_NoDup : NoDup listed_kinds.
Proof.
  unfold listed_kinds.
  repeat (constructor; [ simpl; intuition discriminate | ]).
  constructor.
Qed.

(** Every [ApiError] carries one of the listed kinds. *)
Lemma ApiError_code_listed (error : ApiError) : In (code error) listed_kinds.
Proof.
  destruct error as [e | e | e | e | e | e | e]; simpl.
  - destruct (ve_code e); simpl; tauto.
  - destruct (ne_code e); simpl; tauto.
  - destruct (ae_code e); simpl; tauto.
  - destruct (me_code e); simpl; tauto.
  - destruct (de_code e); simpl; tauto.
  - tauto.
  - destruct (ge_code e); simpl; tauto.
Qed.

(** Every listed kind is the code of some [ApiError]. *)
Lemma listed_kind_inhabited (now : string) (c : ErrorCode) :
  In c listed_kinds -> exists error : ApiError, code error = c.
Proof.
  pose (v k := OfValidation (mkValidationError k "m" None None now)).
  pose (n k := OfNetwork (mkNetworkError k "m" true None now)).
  pose (a k := OfAuth (mkAuthError k "m" None now)).
  pose (m k := OfMedia (mkMediaError k "m" None None None now)).
  pose (d k := OfDatabase (mkDatabaseError k "m" None now)).
  pose (g k := OfGeneric (mkGenericError k "m" None None now)).
  simpl. intros H.
  repeat (destruct H as [<- | H]); try contradiction.
  - exists (n N_NETWORK_ERROR); reflexivity.
  - exists (n N_TIMEOUT_ERROR); reflexivity.
  - exists (n N_CONNECTION_ERROR); reflexivity.
  - exists (a A_UNAUTHORIZED); reflexivity.
  - exists (a A_FORBIDDEN); reflexivity.
  - exists (a A_SESSION_EXPIRED); reflexivity.
  - exists (a A_INVALID_CREDENTIALS); reflexivity.
  - exists (v V_VALIDATION_ERROR); reflexivity.
  - exists (v V_INVALID_INPUT); reflexivity.
  - exists (v V_MISSING_REQUIRED_FIELD); reflexivity.
  - exists (m M_MEDIA_UPLOAD_FAILED); reflexivity.
  - exists (m M_MEDIA_TOO_LARGE); reflexivity.
  - exists (m M_INVALID_MEDIA_TYPE); reflexivity.
  - exists (m M_MEDIA_PROCESSING_FAILED); reflexivity.
  - exists (d D_DATABASE_ERROR); reflexivity.
  - exists (d D_RECORD_NOT_FOUND); reflexivity.
  - exists (d D_DUPLICATE_RECORD); reflexivity.
  - exists (OfRateLimit (rateLimitError now "m" 1 1 0)); reflexivity.
  - exists (g G_UNKNOWN_ERROR); reflexivity.
  - exists (g G_SERVER_ERROR); reflexivity.
Qed.

(** C4, as stated, fails: [CONTENT_MODERATION_FAILED] is a member of the
    enumeration and is not one of the twenty listed kinds (and so is
    [ALREADY_REACTED]). *)
Lemma C4_extra_members :
  In CONTENT_MODERATION_FAILED ErrorCode_members /\
  ~ In CONTENT_MODERATION_FAILED listed_kinds /\
  In ALREADY_REACTED ErrorCode_members /\
  ~ In ALREADY_REACTED listed_kinds.
Proof.
  repeat split; try apply ErrorCode_members_complete;
    simpl; intuition discriminate.
Qed.

(** C4, amended: the enumeration [ErrorCode] is closed and has exactly
    twenty-two members with pairwise distinct values: the twenty listed
    kinds and, besides, [CONTENT_MODERATION_FAILED] and
    [ALREADY_REACTED].  The twenty listed kinds are exactly the codes an
    [ApiError] can carry. *)
Theorem C4_ErrorCode_members (now : string) :
  (forall c : ErrorCode, In c ErrorCode_members) /\
  NoDup ErrorCode_members /\
  List.length ErrorCode_members = 22%nat /\
  (forall a b : ErrorCode, ErrorCode_value a = ErrorCode_value b -> a = b) /\
  NoDup listed_kinds /\
  List.length listed_kinds = 20%nat /\
  (forall c : ErrorCode,
     In c listed_kinds \/ c = CONTENT_MODERATION_FAILED \/ c = ALREADY_REACTED) /\
  (forall c : ErrorCode,
     In c listed_kinds <-> exists error : ApiError, code error = c).
Proof.
  split; [exact ErrorCode_members_complete |].
  split; [exact ErrorCode_members_NoDup |].
  split; [reflexivity |].
  split; [exact ErrorCode_value_injective |].
  split; [exact listed_kinds_NoDup |].
  split; [reflexivity |].
  split.
  - intros c. destruct c; simpl; tauto.
  - intros c. split.
    + apply listed_kind_inhabited. exact now.
    + intros [error <-]. apply ApiError_code_listed.
Qed.

Lemma isNetworkError_spec (error : ApiError) :
  isNetworkError error = true <->
  code error = NETWORK_ERROR \/ code error = TIMEOUT_ERROR \/
  code error = CONNECTION_ERROR.
Proof.
  unfold isNetworkError.
  rewrite !orb_true_iff, !ErrorCode_eqb_eq. tauto.
Qed.

(** Only a [NetworkError] has a code of the network family, so the
    [retryable] property is defined exactly there. *)
Lemma network_code_has_retryable (error : ApiError) :
  isNetworkError error = true -> exists flag, retryable error = Some flag.
Proof.
  unfold isNetworkError.
  destruct error as [e | e | e | e | e | e | e]; simpl.
  - destruct (ve_code e); cbv; discriminate.
  - intros _. eexists; reflexivity.
  - destruct (ae_code e); cbv; discriminate.
  - destruct (me_code e); cbv; discriminate.
  - destruct (de_code e); cbv; discriminate.
  - cbv; discriminate.
  - destruct (ge_code e); cbv; discriminate.
Qed.

(** C2: [isRetryableError] is true exactly on an error of the network
    family (network, timeout or connection) whose [retryable] flag is
    set, on the rate-limited kind and on the server kind, and false on
    every other error; [rateLimitError("slow down", 30, 100, 0)] has
    [retry_after] 30 and is retryable. *)
Theorem C2_isRetryableError :
  (forall error : ApiError,
     isRetryableError error = true <->
     ((code error = NETWORK_ERROR \/ code error = TIMEOUT_ERROR \/
       code error = CONNECTION_ERROR) /\ retryable error = Some true)
     \/ code error = RATE_LIMIT_EXCEEDED
     \/ code error = SERVER_ERROR) /\
  (forall now : string,
     let e := rateLimitError now "slow down" 30 100 0 in
     re_retry_after e = 30%Z /\
     retry_after (OfRateLimit e) = Some 30%Z /\
     code (OfRateLimit e) = RATE_LIMIT_EXCEEDED /\
     isRetryableError (OfRateLimit e) = true).
Proof.
  split.
  - intros error. unfold isRetryableError.
    destruct (isNetworkError error) eqn:Hnet.
    + destruct (network_code_has_retryable error Hnet) as [flag Hflag].
      rewrite Hflag.
      apply isNetworkError_spec in Hnet.
      split.
      * intros ->. left. split; [exact Hnet | reflexivity].
      * intros [[_ H] | [H | H]].
        -- now injection H.
        -- rewrite H in Hnet. destruct Hnet as [? | [? | ?]]; discriminate.
        -- rewrite H in Hnet. destruct Hnet as [? | [? | ?]]; discriminate.
    + assert (Hno : ~ (code error = NETWORK_ERROR \/
                       code error = TIMEOUT_ERROR \/
                       code error = CONNECTION_ERROR)).
      { intros H. apply isNetworkError_spec in H. congruence. }
      unfold isRateLimitError.
      destruct (ErrorCode_eqb (code error) RATE_LIMIT_EXCEEDED) eqn:Hrate.
      * apply ErrorCode_eqb_eq in Hrate. split; auto.
      * rewrite ErrorCode_eqb_eq. split.
        -- auto.
        -- intros [[H _] | [H | H]].
           ++ contradiction.
           ++ apply ErrorCode_eqb_eq in H. congruence.
           ++ exact H.
  - intros now. repeat split.
Qed.

End ApiFacts.

(* ================================================================== *)
(** * The validators ([Validation])                                    *)
(* ================================================================== *)

Section PatternFacts.

Import Js.

Lemma words_Cat_Eps_l (r : regex) (s : string) :
  words (Cat Eps r) s <-> words r s.
Proof.
  split; intros H.
  - inversion H as [ | | ra rb s1 s2 H1 H2 Era Es | | | | ]; subst.
    inversion H1; subst. exact H2.
  - change s with (EmptyString ++ s). constructor; [constructor | exact H].
Qed.

Lemma words_Cat_Eps_r (r : regex) (s : string) :
  words (Cat r Eps) s <-> words r s.
Proof.
  split; intros H.
  - inversion H as [ | | ra rb s1 s2 H1 H2 Era Es | | | | ]; subst.
    inversion H2; subst. now rewrite append_empty_r.
  - rewrite <- (append_empty_r s). constructor; [exact H | constructor].
Qed.

(** [/^body$/.test(s)] holds exactly when [s] is a word of [body]. *)
Lemma test_anchored (r : regex) (s : string) :
  test (mkRegExp true r true) s = true <-> words r s.
Proof.
  unfold test; simpl.
  rewrite matches_spec, words_Cat_Eps_l, words_Cat_Eps_r. tauto.
Qed.

Lemma words_Star_Cls (p : ascii -> bool) (s : string) :
  words (Star (Cls p)) s <-> every p s = true.
Proof.
  split.
  - intros H. remember (Star (Cls p)) as r eqn:Er.
    induction H as [ | q c Hq | r1 r2 s1 s2 H1 IH1 H2 IH2 | r1 r2 s H IH
                   | r1 r2 s H IH | r0 | r0 s1 s2 H1 IH1 H2 IH2 ];
      try discriminate Er.
    + reflexivity.
    + injection Er as ->.
      inversion H1; subst. simpl.
      rewrite (IH2 eq_refl). now rewrite andb_true_r.
  - induction s as [|c s IH]; simpl; intros H.
    + constructor.
    + apply andb_prop in H as [Hc Hs].
      change (String c s) with (String c EmptyString ++ s).
      constructor; [now constructor | auto].
Qed.

Lemma words_Plus_Cls (p : ascii -> bool) (s : string) :
  words (Plus (Cls p)) s <-> s <> EmptyString /\ every p s = true.
Proof.
  unfold Plus. split.
  - intros H.
    inversion H as [ | | ra rb s1 s2 H1 H2 Era Es | | | | ]; subst.
    inversion H1; subst. simpl. split; [discriminate |].
    apply words_Star_Cls in H2. now rewrite H2, andb_true_r.
  - intros [Hne H]. destruct s as [|c s]; [contradiction |].
    simpl in H. apply andb_prop in H as [Hc Hs].
    change (String c s) with (String c EmptyString ++ s).
    constructor; [now constructor | now apply words_Star_Cls].
Qed.

End PatternFacts.

Section ValidationFacts.

Import Api Validation Properties.
Import VALIDATION_CONSTRAINTS.

Variable now : string.
Variable url_parses : string -> bool.

(** The username pattern accepts the non-empty strings of letters,
    digits and underscores. *)
Lemma USERNAME_PATTERN_spec (s : string) :
  Js.test USERNAME.PATTERN s = true <->
  s <> EmptyString /\ Js.every USERNAME.word_char s = true.
Proof.
  unfold USERNAME.PATTERN. rewrite test_anchored. apply words_Plus_Cls.
Qed.

Lemma word_char_not_white_space (c : ascii) :
  USERNAME.word_char c = true -> Js.is_white_space c = false.
Proof.
  destruct c as [b0 b1 b2 b3 b4 b5 b6 b7].
  destruct b0, b1, b2, b3, b4, b5, b6, b7; vm_compute;
    intros H; first [reflexivity | discriminate H].
Qed.

Lemma trimEnd_keeps_head (c : ascii) (rest : string) :
  Js.is_white_space c = false ->
  exists kept, Js.trimEnd (String c rest) = String c kept.
Proof.
  intros Hc. simpl. rewrite Hc.
  destruct (Js.trimEnd rest); eexists; reflexivity.
Qed.

Lemma word_not_blank (s : string) :
  s <> EmptyString -> Js.every USERNAME.word_char s = true -> blank s = false.
Proof.
  destruct s as [|c rest]; [contradiction |].
  intros _ H. simpl in H. apply andb_prop in H as [Hc _].
  apply word_char_not_white_space in Hc.
  unfold blank, Js.trim. simpl Js.falsy_string. simpl Js.trimStart.
  rewrite Hc.
  destruct (trimEnd_keeps_head c rest Hc) as [kept ->].
  reflexivity.
Qed.

(** C7: [validateUsername] succeeds exactly on the strings of 3 to 30
    letters, digits and underscores; the empty string is rejected as a
    missing required field; ["ab"] fails with a validation error of
    field ["username"] whose message mentions ["at least 3"];
    ["john_doe1"] succeeds, branded as a valid username. *)
Theorem C7_validateUsername :
  (forall username : string,
     isSuccess (validateUsername now username) = true <->
     (3 <= String.length username <= 30)%nat /\
     Js.every USERNAME.word_char username = true) /\
  validateUsername now EmptyString =
    Failure (validationError now "Username is required"
               (Some "username") None) /\
  (exists e : ValidationError,
     validateUsername now "ab" = Failure e /\
     ValidationCode_code (ve_code e) = VALIDATION_ERROR /\
     ve_field e = Some "username" /\
     Js.includes (ve_message e) "at least 3" = true) /\
  validateUsername now "john_doe1" =
    Success (as_brand "john_doe1" : ValidUsername).
Proof.
  split; [| split; [reflexivity | split; [| reflexivity]]].
  - intros username. unfold validateUsername.
    destruct (blank username) eqn:Hblank.
    { simpl. split; [discriminate |]. intros [[Hmin _] Hword].
      rewrite word_not_blank in Hblank; [discriminate | | exact Hword].
      intros ->. simpl in Hmin. lia. }
    unfold len, USERNAME.MIN_LENGTH, USERNAME.MAX_LENGTH.
    destruct (Z.ltb_spec (Z.of_nat (String.length username)) 3) as [Hlo | Hlo].
    { simpl. split; [discriminate |]. intros [[Hmin _] _]. lia. }
    destruct (Z.of_nat (String.length username) >? 30)%Z eqn:Hhi.
    { simpl. split; [discriminate |]. intros [[_ Hmax] _].
      apply Z.gtb_lt in Hhi. lia. }
    assert (Hmax : (Z.of_nat (String.length username) <= 30)%Z).
    { rewrite Z.gtb_ltb in Hhi. apply Z.ltb_ge in Hhi. exact Hhi. }
    destruct (Js.test USERNAME.PATTERN username) eqn:Htest; simpl.
    + apply USERNAME_PATTERN_spec in Htest as [_ Hword].
      split; [| reflexivity]. intros _. split; [lia | exact Hword].
    + split; [discriminate |]. intros [[Hmin _] Hword].
      assert (Hyes : Js.test USERNAME.PATTERN username = true).
      { apply USERNAME_PATTERN_spec. split; [| exact Hword].
        intros ->. simpl in Hmin. lia. }
      congruence.
  - eexists. split; [reflexivity |]. repeat split.
Qed.

(** C5: whenever a field validator [v] accepts a string [s], the value in
    the success arm, read back as a raw string, is [s] itself. *)
Theorem C5_validated_value_is_input
    (v : StringValidator) (s r : string) :
  validated_raw now url_parses v s = Some r -> r = s.
Proof.
  destruct v; unfold validated_raw, validateEmail, validateUsername,
    validatePassword, validatePostContent, validateCommentContent,
    validateBio, validateMediaUrl; cbv zeta;
    repeat match goal with
           | |- context [if ?b then _ else _] => destruct b
           end;
    simpl; intros H; first [discriminate H | now injection H].
Qed.

(** The record accepted by [validateMediaFile] comes back field for
    field. *)
Lemma validateMediaFile_keeps_input
    (input : MediaUploadInput) (out : ValidatedMediaUploadInput) :
  validateMediaFile now url_parses input = Success out ->
  raw (v_uri out) = uri input /\ v_type out = type input /\
  v_name out = name input /\ v_size out = size input.
Proof.
  unfold validateMediaFile, validateMediaUrl; cbv zeta.
  repeat match goal with
         | |- context [if ?b then _ else _] => destruct b
         end;
    simpl; intros H; try discriminate H;
    injection H as <-; repeat split.
Qed.

End ValidationFacts.

Section MediaAndCompositeFacts.

Import Api Validation Properties.
Import VALIDATION_CONSTRAINTS.

Variable now : string.
Variable url_parses : string -> bool.

Lemma array_includes_app (xs ys : list string) (x : string) :
  Js.array_includes (xs ++ ys) x =
  Js.array_includes xs x || Js.array_includes ys x.
Proof.
  unfold Js.array_includes. apply existsb_app.
Qed.

(** A file whose type is not a video type is measured against
    [MAX_FILE_SIZE], whatever its type is, and before the type is looked
    up in the allow-lists. *)
Lemma validateMediaFile_image_limit (input : MediaUploadInput) :
  Js.array_includes MEDIA.ALLOWED_VIDEO_TYPES (type input) = false ->
  (size input > MEDIA.MAX_FILE_SIZE)%Z ->
  validateMediaFile now url_parses input = Failure (image_size_error now).
Proof.
  intros Hvideo Hsize. unfold validateMediaFile. rewrite Hvideo.
  replace (size input >? MEDIA.MAX_FILE_SIZE)%Z with true
    by (symmetry; apply Z.gtb_lt; lia).
  reflexivity.
Qed.

(** C8: a file whose type is in neither allow-list and whose size is over
    10MB is refused with the size-limit error of the 10MB image limit,
    not with the invalid-file-type error: the size is checked first. *)
Theorem C8_size_checked_before_type (input : MediaUploadInput) :
  Js.array_includes
    (MEDIA.ALLOWED_IMAGE_TYPES ++ MEDIA.ALLOWED_VIDEO_TYPES)
    (type input) = false ->
  (size input > 10 * 1024 * 1024)%Z ->
  validateMediaFile now url_parses input = Failure (image_size_error now) /\
  ve_message (image_size_error now) = "File size must not exceed 10.00MB" /\
  ve_field (image_size_error now) = Some "media" /\
  validateMediaFile now url_parses input <> Failure (file_type_error now).
Proof.
  intros Htype Hsize.
  rewrite array_includes_app in Htype.
  apply orb_false_elim in Htype as [_ Hvideo].
  rewrite (validateMediaFile_image_limit input Hvideo Hsize).
  repeat split. discriminate.
Qed.

(** C9: with valid content and the empty string as [media_url], the
    composite validator succeeds and its result has neither [media_url]
    nor [media_type] (nor a thumbnail), although [validateMediaUrl]
    refuses the empty string as a missing URL; and every result has its
    [media_type] copied from the input when it has a [media_url], and no
    [media_type] otherwise. *)
Theorem C9_empty_media_url_is_skipped (input : CreatePostInput) :
  isSuccess (validatePostContent now (content input)) = true ->
  media_url input = Some EmptyString ->
  validateCreatePostInput now url_parses input =
    Success {| v_content := as_brand (content input);
               v_media_url := None;
               v_media_type := None;
               v_thumbnail_url := None |} /\
  validateMediaUrl now url_parses EmptyString =
    Failure (validationError now "Media URL is required"
               (Some "media_url") None) /\
  (forall (other : CreatePostInput) (out : ValidatedCreatePostInput),
     validateCreatePostInput now url_parses other = Success out ->
     (v_media_url out = None /\ v_media_type out = None) \/
     (exists url, v_media_url out = Some url /\
                  media_url other = Some (raw url) /\
                  v_media_type out = media_type other)).
Proof.
  intros Hcontent Hurl. split; [| split; [reflexivity |]].
  - unfold validateCreatePostInput. rewrite Hurl. simpl truthy.
    revert Hcontent. unfold validatePostContent.
    repeat match goal with
           | |- context [if ?b then _ else _] => destruct b
           end;
      simpl; intros H; first [discriminate H | reflexivity].
  - intros other out. unfold validateCreatePostInput.
    destruct (validatePostContent now (content other)) as [c | e];
      [| simpl; intros H; discriminate H].
    destruct (media_url other) as [[|ch rest] |]; simpl.
    + intros H. injection H as <-. left. split; reflexivity.
    + destruct (validateMediaUrl now url_parses (String ch rest))
        as [u | e] eqn:Hu; [| simpl; intros H; discriminate H].
      assert (Hraw : raw u = String ch rest).
      { revert Hu. unfold validateMediaUrl.
        repeat match goal with
               | |- context [if ?b then _ else _] => destruct b
               end;
          intros H; first [discriminate H | now injection H as <-]. }
      destruct (truthy (thumbnail_url other)) as [t |].
      * destruct (validateMediaUrl now url_parses t) as [tu | e];
          [| simpl; intros H; discriminate H].
        intros H. injection H as <-. right. exists u. simpl.
        rewrite Hraw. repeat split.
      * intros H. injection H as <-. right. exists u. simpl.
        rewrite Hraw. repeat split.
    + intros H. injection H as <-. left. split; reflexivity.
Qed.

(** C10: the error in the failure arm of every field validator is built
    by [validationError]: its code is [VALIDATION_ERROR], its message is
    not empty, its timestamp is the time of the call, and it names a
    field, one of those the validator reports under. *)
Theorem C10_failures_come_from_validationError
    (call : FieldCall) (e : ValidationError) :
  failure_of now url_parses call = Some e ->
  ValidationCode_code (ve_code e) = VALIDATION_ERROR /\
  ve_message e <> EmptyString /\
  ve_timestamp e = now /\
  (exists field,
     ve_field e = Some field /\ field <> EmptyString /\
     In field (field_names call)) /\
  e = validationError now (ve_message e) (ve_field e) None.
Proof.
  destruct call; unfold failure_of, validateEmail, validateUsername,
    validatePassword, validatePostContent, validateCommentContent,
    validateBio, validateMediaFile, validateMediaUrl,
    validatePasswordsMatch; cbv zeta;
    repeat match goal with
           | |- context [if ?b then _ else _] => destruct b
           end;
    simpl; intros H; try discriminate H; injection H as <-;
    (split; [reflexivity |]);
    (split; [discriminate |]);
    (split; [reflexivity |]);
    (split;
     [ eexists; split; [reflexivity | split; [discriminate | simpl; tauto]]
     | reflexivity ]).
Qed.

End MediaAndCompositeFacts.

(* ================================================================== *)
(** * The normalizers ([ErrorHandler])                                 *)
(* ================================================================== *)

Section NormalizerFacts.

Import ErrorHandler Properties.

Variable now : Date.

(** [error?.message || 'Database operation failed'] when the message is
    a string or falsy. *)
Lemma supabase_message (error : JsValue) (text : string) :
  supabase_message_text error = Some text ->
  or_else (optional_get error key_message)
          (JsString "Database operation failed") =
  JsString (or_string text "Database operation failed").
Proof.
  unfold supabase_message_text, or_else.
  destruct (optional_get error key_message) as [ | | b | n | s | ps | m ps | e ];
    simpl.
  - intros H. now injection H as <-.
  - intros H. now injection H as <-.
  - destruct b; simpl; intros H; [discriminate H | now injection H as <-].
  - destruct (n =? 0)%Z; simpl; intros H;
      [now injection H as <- | discriminate H].
  - intros H. injection H as <-. destruct s; reflexivity.
  - discriminate.
  - discriminate.
  - discriminate.
Qed.


(** [error?.message?.includes(needle)] on a message that is a string,
    undefined or null. *)
Lemma message_includes_text (error : JsValue) (text needle : string) :
  network_message_text error = Some text ->
  needle <> EmptyString ->
  message_includes error needle = Returns (Js.includes text needle).
Proof.
  unfold network_message_text, message_includes.
  destruct (optional_get error key_message) as [ | | b | n | s | ps | m ps | e ];
    simpl; intros H Hneedle; try discriminate H; injection H as <-;
    try reflexivity;
    (destruct needle; [contradiction | reflexivity]).
Qed.

(** The default message names no authentication phrase, so the phrase
    tests give the same answers on the message read as on the message
    used. *)
Lemma default_message_is_neutral (text : string) :
  let used := or_string text "Database operation failed" in
  Js.includes used "Invalid login credentials" =
    Js.includes text "Invalid login credentials" /\
  Js.includes used "JWT" = Js.includes text "JWT" /\
  Js.includes used "token" = Js.includes text "token".
Proof.
  destruct text; repeat split.
Qed.

(** C1, as stated, fails: with code ['23505'] and a message that
    mentions a token, the result is the session-expired kind, not the
    duplicate kind; with code ['23503'] likewise. *)
Lemma C1_message_overrides_code :
  (exists e : AppError,
     parseSupabaseError 0%Z
       (backend_failure "23505"
          "duplicate key value violates unique constraint on refresh_tokens")
       None = Returns e /\
     code e = SESSION_EXPIRED /\ code e <> DUPLICATE_ENTRY) /\
  (exists e : AppError,
     parseSupabaseError 0%Z
       (backend_failure "23503" "Invalid login credentials") None
     = Returns e /\
     code e = INVALID_CREDENTIALS /\ code e <> NOT_FOUND).
Proof.
  split; eexists; (split; [reflexivity |]); split;
    [reflexivity | discriminate | reflexivity | discriminate].
Qed.

(** The order of the tests of [parseSupabaseError], on every input it
    does not throw on. *)
Lemma parseSupabaseError_order
    (error : JsValue) (context : option string) (text : string) :
  supabase_message_text error = Some text ->
  exists e : AppError,
    parseSupabaseError now error context = Returns e /\
    (Js.includes text "Invalid login credentials" = true ->
     code e = INVALID_CREDENTIALS) /\
    (Js.includes text "Invalid login credentials" = false ->
     Js.includes text "JWT" || Js.includes text "token" = true ->
     code e = SESSION_EXPIRED) /\
    (names_authentication text = false ->
     (optional_get error key_code = JsString "23505" ->
      code e = DUPLICATE_ENTRY) /\
     (optional_get error key_code = JsString "23503" ->
      code e = NOT_FOUND)).
Proof.
  intros Hmessage. unfold parseSupabaseError.
  rewrite (supabase_message error text Hmessage).
  destruct (default_message_is_neutral text) as (-> & -> & ->).
  unfold names_authentication.
  destruct (Js.includes text "Invalid login credentials"),
    (Js.includes text "JWT"), (Js.includes text "token"); simpl;
    eexists; (split; [reflexivity |]);
    (split; [intros H; first [reflexivity | discriminate H] |]);
    (split; [intros H1 H2; first [reflexivity | discriminate H1
                                 | discriminate H2] |]);
    intros H; first [discriminate H | split; intros ->; reflexivity].
Qed.

(** C1, amended: [parseSupabaseError] looks for the authentication
    phrases in the message before it looks at the code.  A message with
    ['Invalid login credentials'] gives the invalid-credentials kind and
    otherwise one with ['JWT'] or ['token'] gives the session-expired
    kind, whatever the code; for every other message text (and when
    there is no message), code ['23505'] gives the duplicate kind and
    code ['23503'] the not-found kind.
    [{code:"23505", message:"duplicate key"}] gives the duplicate
    kind. *)
Theorem C1_parseSupabaseError_code_table :
  (forall (error : JsValue) (context : option string) (text : string),
     supabase_message_text error = Some text ->
     exists e : AppError,
       parseSupabaseError now error context = Returns e /\
       (Js.includes text "Invalid login credentials" = true ->
        code e = INVALID_CREDENTIALS) /\
       (Js.includes text "Invalid login credentials" = false ->
        Js.includes text "JWT" || Js.includes text "token" = true ->
        code e = SESSION_EXPIRED) /\
       (names_authentication text = false ->
        (optional_get error key_code = JsString "23505" ->
         code e = DUPLICATE_ENTRY) /\
        (optional_get error key_code = JsString "23503" ->
         code e = NOT_FOUND))) /\
  (exists e : AppError,
     parseSupabaseError now (backend_failure "23505" "duplicate key") None
     = Returns e /\
     code e = DUPLICATE_ENTRY).
Proof.
  split; [exact parseSupabaseError_order |].
  eexists. split; reflexivity.
Qed.

(** C6, as stated, fails: a message that contains the network phrase
    (in either spelling) and also ["timeout"] gives the timeout kind,
    not the network kind. *)
Lemma C6_timeout_wins :
  let lower := "network request failed: timeout exceeded" in
  let upper := "Network request failed: timeout exceeded" in
  Js.includes lower "network request failed" = true /\
  Js.includes upper "Network request failed" = true /\
  (exists e : AppError,
     parseNetworkError 0%Z (JsError lower []) None = Returns e /\
     code e = TIMEOUT_ERROR /\ code e <> NETWORK_ERROR) /\
  (exists e : AppError,
     parseNetworkError 0%Z (JsError upper []) None = Returns e /\
     code e = TIMEOUT_ERROR /\ code e <> NETWORK_ERROR).
Proof.
  cbv zeta. split; [reflexivity |]. split; [reflexivity |].
  split; eexists; (split; [reflexivity |]); split;
    [reflexivity | discriminate | reflexivity | discriminate].
Qed.

(** C6, amended: for every input whose message is a string,
    [parseNetworkError] returns an [AppError]; its kind is the timeout
    kind when the message contains ["timeout"], also when it contains
    the network phrase as well, and the network kind when it does not
    contain ["timeout"], so in particular when it contains
    ["Network request failed"] or ["network request failed"] and no
    ["timeout"].  An [AppError] has no retryable flag; in both cases it
    is marked operational. *)
Theorem C6_parseNetworkError_kinds
    (error : JsValue) (context : option string) (text : string) :
  network_message_text error = Some text ->
  exists e : AppError,
    parseNetworkError now error context = Returns e /\
    (Js.includes text "timeout" = true -> code e = TIMEOUT_ERROR) /\
    (Js.includes text "timeout" = false -> code e = NETWORK_ERROR) /\
    isOperational e = true.
Proof.
  intros Hmessage. unfold parseNetworkError.
  rewrite (message_includes_text error text "timeout" Hmessage)
    by discriminate.
  rewrite (message_includes_text error text "Network request failed" Hmessage)
    by discriminate.
  destruct (Js.includes text "timeout"),
    (Js.includes text "Network request failed");
    eexists; (split; [reflexivity |]);
    (split; [intros H; first [reflexivity | discriminate H] |]);
    (split; [intros H; first [reflexivity | discriminate H] | reflexivity]).
Qed.

End NormalizerFacts.

(* ================================================================== *)
(** * The guarded executor ([Hooks])                                   *)
(* ================================================================== *)

Section ExecutorFacts.

Import ErrorHandler Hooks Properties.

(** A string is normalized to the unknown kind with itself as message. *)
Lemma parseError_string (now : Date) (s : string) (ctx : option string) :
  code (parseError now (JsString s) ctx) = UNKNOWN_ERROR /\
  message (parseError now (JsString s) ctx) = s.
Proof.
  split; reflexivity.
Qed.

(** Every normalized error that was not an [AppError] already has the
    unknown kind. *)
Lemma parseError_unknown (now : Date) (v : JsValue) (ctx : option string) :
  (forall e, v <> JsAppError e) ->
  code (parseError now v ctx) = UNKNOWN_ERROR.
Proof.
  intros Hv. destruct v as [ | | b | n | s | props | m props | e ];
    try reflexivity.
  - unfold parseError. destruct (object_with_message _); reflexivity.
  - exfalso. now apply (Hv e).
Qed.

(** C3, as stated, fails in its last part: when the operation succeeds
    and the [onSuccess] callback throws, the produced value is stored
    and the error state is set, not clear. *)
Lemma C3_callback_fault_is_stored :
  let operation := fun _ : list JsValue => Returns 1%Z in
  let options :=
    {| base := no_options;
       onSuccess := Some (fun _ : Z => Throws (JsString "late")) |} in
  exists (st : HookState Z) (e : AppError),
    execute Z 0%Z operation options [] (initial Z) = (Returns tt, st) /\
    data Z st = Some 1%Z /\
    errorState Z st = holding e /\
    errorState Z st <> clear /\
    message e = "late".
Proof.
  cbv zeta. eexists. eexists.
  split; [reflexivity |]. split; [reflexivity |].
  split; [reflexivity |]. split; [discriminate | reflexivity].
Qed.

(** C3, amended: [execute] never throws.  When the operation fails with
    [v], the error state holds [v] normalized by [parseError] and the
    stored value is untouched; for [v] the string ["boom"] that error
    has the unknown kind and the message ["boom"].  When the operation
    succeeds with [x], [x] is stored, and the error state is clear
    provided the [onSuccess] callback is absent or returns; a value the
    callback throws is caught and stored like a failure of the
    operation. *)
Theorem C3_execute_is_guarded
    (T : Type) (now : Date) (operation : list JsValue -> Completion T)
    (options : UseAsyncOperationOptions T) (args : list JsValue)
    (st : HookState T) :
  exists st' : HookState T,
    execute T now operation options args st = (Returns tt, st') /\
    loading T st' = false /\
    (forall v : JsValue,
       operation args = Throws v ->
       errorState T st' =
         holding (parseError now v (context (base T options))) /\
       data T st' = data T st) /\
    (operation args = Throws (JsString "boom") ->
     exists e : AppError,
       errorState T st' = holding e /\
       code e = UNKNOWN_ERROR /\ message e = "boom") /\
    (forall x : T,
       operation args = Returns x ->
       data T st' = Some x /\
       (onSuccess T options = None \/
        (exists f, onSuccess T options = Some f /\ f x = Returns tt) ->
        errorState T st' = clear) /\
       (forall f w,
          onSuccess T options = Some f -> f x = Throws w ->
          errorState T st' =
            holding (parseError now w (context (base T options))))).
Proof.
  unfold execute, try_finally, try_catch, bind, lift, setLoading, clearError,
    setErrorState, setData, call_if_given, handleError, showErrorAlert,
    Alert_alert, ret.
  destruct (operation args) as [x | v]; simpl.
  - destruct (onSuccess T options) as [f |]; simpl.
    + destruct (f x) as [[] | w] eqn:Hf; simpl.
      * eexists. split; [reflexivity |]. split; [reflexivity |].
        split; [intros v H; discriminate H |].
        split; [intros H; discriminate H |].
        intros y Hy. injection Hy as <-. simpl.
        split; [reflexivity |]. split; [reflexivity |].
        intros g w Hg Hw. injection Hg as <-. congruence.
      * destruct (default false (showAlert (base T options)));
          simpl; eexists; (split; [reflexivity |]);
          (split; [reflexivity |]);
          (split; [intros v H; discriminate H |]);
          (split; [intros H; discriminate H |]);
          intros y Hy; injection Hy as <-; simpl;
          (split; [reflexivity |]);
          (split;
           [ intros [H | (g & Hg & Hret)];
             [ discriminate H | injection Hg as <-; congruence ]
           | intros g w' Hg Hw; injection Hg as <-;
             rewrite Hf in Hw; injection Hw as <-; reflexivity ]).
    + eexists. split; [reflexivity |]. split; [reflexivity |].
      split; [intros v H; discriminate H |].
      split; [intros H; discriminate H |].
      intros y Hy. injection Hy as <-. simpl.
      split; [reflexivity |]. split; [reflexivity |].
      intros g w Hg. discriminate Hg.
  - destruct (default false (showAlert (base T options)));
      simpl; eexists; (split; [reflexivity |]);
      (split; [reflexivity |]);
      (split; [intros v' H; injection H as <-; split; reflexivity |]);
      (split;
       [ intros H; injection H as ->; eexists;
         split; [reflexivity | split; reflexivity]
       | intros y Hy; discriminate Hy ]).
Qed.

End ExecutorFacts.

(* ================================================================== *)
(** * The properties at concrete inputs                                *)
(* ================================================================== *)

Section Instances.

Import Api Validation ErrorHandler Hooks Properties.

(** A foreign-key violation reported by the backend is normalized to
    the not-found kind. *)
Lemma C1_foreign_key_instance :
  exists e : AppError,
    parseSupabaseError 0%Z
      (backend_failure "23503"
         "insert or update on table violates foreign key constraint")
      None
    = Returns e /\
    code e = NOT_FOUND.
Proof.
  destruct (proj1 (C1_parseSupabaseError_code_table 0%Z)
              (backend_failure "23503"
                 "insert or update on table violates foreign key constraint")
              None
              "insert or update on table violates foreign key constraint"
              eq_refl)
    as (e & Hrun & _ & _ & Htable).
  exists e. split; [exact Hrun |].
  apply Htable; reflexivity.
Defined.

(** An operation that throws ["boom"], run from the initial state with
    no options: nothing is propagated, and the error state holds an
    unknown-kind error with message ["boom"]. *)
Lemma C3_boom_instance :
  exists (st : HookState Z) (e : AppError),
    execute Z 0%Z (fun _ => Throws (JsString "boom"))
      {| base := no_options; onSuccess := None |} [] (initial Z)
    = (Returns tt, st) /\
    errorState Z st = holding e /\
    code e = UNKNOWN_ERROR /\ message e = "boom" /\ data Z st = None.
Proof.
  destruct (C3_execute_is_guarded Z 0%Z (fun _ => Throws (JsString "boom"))
              {| base := no_options; onSuccess := None |} [] (initial Z))
    as (st & Hrun & _ & Hfail & Hboom & _).
  destruct (Hboom eq_refl) as (e & Hheld & Hcode & Hmessage).
  destruct (Hfail (JsString "boom") eq_refl) as [_ Hdata].
  exists st, e. repeat split; assumption.
Defined.

(** An accepted email address comes back unchanged. *)
Lemma C5_email_instance :
  validated_raw "2024-01-01T00:00:00.000Z" (String.prefix "https://")
    the_validateEmail "ada@example.com" = Some "ada@example.com" /\
  "ada@example.com" = "ada@example.com".
Proof.
  split; [reflexivity |].
  apply (C5_validated_value_is_input "2024-01-01T00:00:00.000Z"
           (String.prefix "https://") the_validateEmail).
  reflexivity.
Defined.

(** The message of React Native's failed fetch is normalized to the
    network kind. *)
Lemma C6_network_request_failed_instance :
  exists e : AppError,
    parseNetworkError 0%Z (JsError "Network request failed" []) None
    = Returns e /\
    code e = NETWORK_ERROR /\ isOperational e = true.
Proof.
  destruct (C6_parseNetworkError_kinds 0%Z
              (JsError "Network request failed" []) None
              "Network request failed" eq_refl)
    as (e & Hrun & _ & Hnetwork & Hoperational).
  exists e. split; [exact Hrun |].
  split; [apply Hnetwork; reflexivity | exact Hoperational].
Defined.

(** A PDF of 20MB is refused for its size. *)
Lemma C8_pdf_instance :
  let input :=
    mkMediaUploadInput "file:///tmp/report.pdf" "application/pdf"
      "report.pdf" (20 * 1024 * 1024) in
  validateMediaFile "2024-01-01T00:00:00.000Z" (String.prefix "file://") input
  = Failure (image_size_error "2024-01-01T00:00:00.000Z").
Proof.
  cbv zeta.
  refine (proj1 (C8_size_checked_before_type "2024-01-01T00:00:00.000Z"
                   (String.prefix "file://") _ _ _)).
  - reflexivity.
  - simpl. lia.
Defined.

(** A post with text, the empty string as [media_url] and a
    [media_type]: accepted, without media. *)
Lemma C9_empty_url_instance :
  validateCreatePostInput "2024-01-01T00:00:00.000Z" (String.prefix "https://")
    {| content := "hello"; media_url := Some EmptyString;
       media_type := Some image; thumbnail_url := None |}
  = Success {| v_content := as_brand "hello";
               v_media_url := None;
               v_media_type := None;
               v_thumbnail_url := None |}.
Proof.
  refine (proj1 (C9_empty_media_url_is_skipped "2024-01-01T00:00:00.000Z"
                   (String.prefix "https://")
                   {| content := "hello"; media_url := Some EmptyString;
                      media_type := Some image; thumbnail_url := None |}
                   _ _)); reflexivity.
Defined.

(** The failure of [validateUsername("ab")] is a well-formed validation
    error. *)
Lemma C10_short_username_instance :
  exists e : ValidationError,
    failure_of "2024-01-01T00:00:00.000Z" (String.prefix "https://")
      (call_validateUsername "ab") = Some e /\
    ValidationCode_code (ve_code e) = Api.VALIDATION_ERROR /\
    ve_message e <> EmptyString /\
    ve_field e = Some "username".
Proof.
  eexists. split; [reflexivity |].
  destruct (C10_failures_come_from_validationError
              "2024-01-01T00:00:00.000Z" (String.prefix "https://")
              (call_validateUsername "ab") _ eq_refl)
    as (Hcode & Hmessage & _).
  split; [exact Hcode |]. split; [exact Hmessage | reflexivity].
Defined.

End Instances.

(* ================================================================== *)
(** * Further facts: the error taxonomy                                *)
(* ================================================================== *)

Section GuardFacts.

Import Api Validation Properties.

(** X1: the six family guards narrow soundly and partition the errors:
    each guard is true exactly on the values of its own interface, and
    an error on which all six are false is a generic error. *)
Theorem X1_guards_partition (error : ApiError) :
  (isValidationError error = true <-> exists e, error = OfValidation e) /\
  (isNetworkError error = true <-> exists e, error = OfNetwork e) /\
  (isAuthError error = true <-> exists e, error = OfAuth e) /\
  (isMediaError error = true <-> exists e, error = OfMedia e) /\
  (isDatabaseError error = true <-> exists e, error = OfDatabase e) /\
  (isRateLimitError error = true <-> exists e, error = OfRateLimit e) /\
  (isValidationError error || isNetworkError error || isAuthError error ||
   isMediaError error || isDatabaseError error || isRateLimitError error
   = false <-> exists e, error = OfGeneric e).
Proof.
  unfold isValidationError, isNetworkError, isAuthError, isMediaError,
    isDatabaseError, isRateLimitError.
  destruct error as [e | e | e | e | e | e | e]; simpl;
    [ destruct (ve_code e) | destruct (ne_code e) | destruct (ae_code e)
    | destruct (me_code e) | destruct (de_code e) | | destruct (ge_code e) ];
    cbv [ValidationCode_code NetworkCode_code AuthCode_code MediaCode_code
         DatabaseCode_code GenericCode_code ErrorCode_eqb ErrorCode_value];
    simpl;
    repeat split; intros H;
    first [ discriminate H
          | reflexivity
          | eexists; reflexivity
          | destruct H as [x Hx]; discriminate Hx ].
Qed.

Lemma validation_guard (e : ValidationError) :
  isValidationError (OfValidation e) = true.
Proof.
  unfold isValidationError. simpl. destruct (ve_code e); reflexivity.
Qed.

(** The error of a failure arm names one of the validator's fields. *)
Lemma validator_failure_field
    (now : string) (url_parses : string -> bool)
    (call : FieldCall) (e : ValidationError) :
  failure_of now url_parses call = Some e ->
  exists name : string,
    ve_field e = Some name /\ name <> EmptyString /\
    In name (field_names call).
Proof.
  destruct call; unfold failure_of, validateEmail, validateUsername,
    validatePassword, validatePostContent, validateCommentContent,
    validateBio, validateMediaFile, validateMediaUrl,
    validatePasswordsMatch; cbv zeta;
    repeat match goal with
           | |- context [if ?b then _ else _] => destruct b
           end;
    simpl; intros H; try discriminate H; injection H as <-;
    eexists; (split; [reflexivity | split; [discriminate | simpl; tauto]]).
Qed.

(** X2: for the error in the failure arm of any of the nine field
    validators, [getErrorMessage] is the name of the failing field, a
    colon and a space, and the error's message. *)
Theorem X2_getErrorMessage_of_validator_failure
    (now : string) (url_parses : string -> bool)
    (call : FieldCall) (e : ValidationError) :
  failure_of now url_parses call = Some e ->
  exists name : string,
    ve_field e = Some name /\ In name (field_names call) /\
    getErrorMessage (OfValidation e) = name ++ ": " ++ ve_message e.
Proof.
  intros H.
  destruct (validator_failure_field now url_parses call e H)
    as (name & Hfield & Hname & Hin).
  exists name. split; [exact Hfield |]. split; [exact Hin |].
  unfold getErrorMessage. rewrite validation_guard. simpl field.
  rewrite Hfield. destruct name; [contradiction | reflexivity].
Qed.

End GuardFacts.

(* ================================================================== *)
(** * Further facts: patterns and blank strings                        *)
(* ================================================================== *)

Section MorePatternFacts.

Import Js.

Lemma words_Cat_split (r1 r2 : regex) (s : string) :
  words (Cat r1 r2) s <->
  exists s1 s2, s = s1 ++ s2 /\ words r1 s1 /\ words r2 s2.
Proof.
  split.
  - intros H. inversion H as [ | | ra rb s1 s2 H1 H2 Era Es | | | | ]; subst.
    exists s1, s2. auto.
  - intros (s1 & s2 & -> & H1 & H2). now constructor.
Qed.

Lemma words_Cls_single (p : ascii -> bool) (s : string) :
  words (Cls p) s <-> exists c, s = String c EmptyString /\ p c = true.
Proof.
  split.
  - intros H. inversion H; subst. eexists; split; [reflexivity | assumption].
  - intros (c & -> & Hc). now constructor.
Qed.

(** A word that starts with a member of a class. *)
Lemma words_Cls_Cat (p : ascii -> bool) (r : regex) (s : string) :
  words (Cat (Cls p) r) s <->
  exists c rest, s = String c rest /\ p c = true /\ words r rest.
Proof.
  rewrite words_Cat_split. split.
  - intros (s1 & s2 & -> & H1 & H2).
    apply words_Cls_single in H1 as (c & -> & Hc).
    exists c, s2. auto.
  - intros (c & rest & -> & Hc & Hr).
    exists (String c EmptyString), rest.
    split; [reflexivity |]. split; [now constructor | exact Hr].
Qed.

Lemma words_Eps_empty (s : string) : words Eps s <-> s = EmptyString.
Proof.
  split; intros H; [now inversion H | subst; constructor].
Qed.

Lemma words_Alt_or (r1 r2 : regex) (s : string) :
  words (Alt r1 r2) s <-> words r1 s \/ words r2 s.
Proof.
  split.
  - intros H. inversion H; subst; auto.
  - intros [H | H]; [now apply words_Alt_l | now apply words_Alt_r].
Qed.

Lemma words_any (s : string) : words (Star any_char) s.
Proof.
  apply words_Star_Cls. induction s; simpl; auto.
Qed.

Lemma some_app (p : ascii -> bool) (s1 s2 : string) :
  some p (s1 ++ s2) = some p s1 || some p s2.
Proof.
  induction s1 as [|c s1 IH]; simpl; [reflexivity |].
  now rewrite IH, orb_assoc.
Qed.

(** [/[class]/.test(s)], without anchors, finds a member of the class
    anywhere in [s]. *)
Lemma test_search_Cls (p : ascii -> bool) (s : string) :
  test (mkRegExp false (Cls p) false) s = some p s.
Proof.
  apply eq_true_iff_eq. unfold test; simpl.
  rewrite matches_spec, words_Cat_split. split.
  - intros (s1 & s2 & -> & _ & H).
    apply words_Cls_Cat in H as (c & rest & -> & Hc & _).
    rewrite some_app. simpl. rewrite Hc. apply orb_true_r.
  - induction s as [|c s IH]; simpl; [discriminate |].
    intros H. apply orb_prop in H as [Hc | Hs].
    + exists EmptyString, (String c s). split; [reflexivity |].
      split; [constructor |].
      apply words_Cls_Cat. exists c, s. repeat split; auto using words_any.
    + destruct (IH Hs) as (s1 & s2 & -> & _ & H).
      exists (String c s1), s2. split; [reflexivity |].
      split; [apply words_any | exact H].
Qed.

Lemma every_app (p : ascii -> bool) (s1 s2 : string) :
  every p (s1 ++ s2) = every p s1 && every p s2.
Proof.
  induction s1 as [|c s1 IH]; simpl; [reflexivity |].
  now rewrite IH, andb_assoc.
Qed.

Lemma app_length (s1 s2 : string) :
  String.length (s1 ++ s2) = (String.length s1 + String.length s2)%nat.
Proof.
  induction s1 as [|c s1 IH]; simpl; [reflexivity | now rewrite IH].
Qed.

(** [trimStart] leaves nothing exactly of the strings of white space. *)
Lemma trimStart_empty (s : string) :
  trimStart s = EmptyString <-> every is_white_space s = true.
Proof.
  induction s as [|c s IH]; simpl; [tauto |].
  destruct (is_white_space c); simpl; [exact IH |].
  split; discriminate.
Qed.

Lemma trimStart_head (s : string) :
  match trimStart s with
  | EmptyString => True
  | String c _ => is_white_space c = false
  end.
Proof.
  induction s as [|c s IH]; simpl; [exact I |].
  destruct (is_white_space c) eqn:Hc; [exact IH | exact Hc].
Qed.

(** [s.trim()] is empty exactly when [s] consists of white space. *)
Lemma trim_empty (s : string) :
  trim s = EmptyString <-> every is_white_space s = true.
Proof.
  rewrite <- trimStart_empty. unfold trim.
  pose proof (trimStart_head s) as Hhead.
  destruct (trimStart s) as [|c rest]; [simpl; tauto |].
  simpl. rewrite Hhead.
  split; [| discriminate].
  destruct (trimEnd rest); discriminate.
Qed.

End MorePatternFacts.

Section BlankFacts.

Import Validation.

(** The test for a required field: it fails exactly the strings that
    consist of white space, the empty string among them. *)
Lemma blank_spec (s : string) :
  blank s = Js.every Js.is_white_space s.
Proof.
  apply eq_true_iff_eq. rewrite <- trim_empty.
  unfold blank, len. split.
  - intros H. apply orb_prop in H as [H | H].
    + destruct s; [reflexivity | discriminate H].
    + apply Z.eqb_eq in H. destruct (Js.trim s); [reflexivity | discriminate H].
  - intros ->. apply orb_true_r.
Qed.

Lemma not_blank_not_empty (s : string) :
  blank s = false -> s <> EmptyString.
Proof.
  intros H ->. discriminate H.
Qed.

End BlankFacts.

(* ================================================================== *)
(** * Further facts: the field validators                              *)
(* ================================================================== *)

Section FieldValidatorFacts.

Import Api Validation Properties.
Import VALIDATION_CONSTRAINTS.

Variable now : string.
Variable url_parses : string -> bool.

Lemma plain_char_not_white_space (c : ascii) :
  EMAIL.plain_char c = true -> Js.is_white_space c = false.
Proof.
  unfold EMAIL.plain_char. destruct (Js.is_white_space c); [discriminate | auto].
Qed.

Lemma at_sign_only (c : ascii) : Ascii.eqb "@" c = true -> c = "@"%char.
Proof.
  intros H. symmetry. now apply Ascii.eqb_eq.
Qed.

Lemma dot_only (c : ascii) : Ascii.eqb "." c = true -> c = "."%char.
Proof.
  intros H. symmetry. now apply Ascii.eqb_eq.
Qed.

(** The words of the email pattern. *)
Lemma EMAIL_PATTERN_spec (s : string) :
  Js.test EMAIL.PATTERN s = true <->
  exists local domain tld : string,
    s = local ++ "@" ++ domain ++ "." ++ tld /\
    local <> EmptyString /\ domain <> EmptyString /\ tld <> EmptyString /\
    Js.every EMAIL.plain_char local = true /\
    Js.every EMAIL.plain_char domain = true /\
    Js.every EMAIL.plain_char tld = true.
Proof.
  unfold EMAIL.PATTERN. rewrite test_anchored. split.
  - intros H.
    apply words_Cat_split in H as (a & r1 & -> & Ha & H).
    apply words_Cls_Cat in H as (c1 & r2 & -> & Hc1 & H).
    apply words_Cat_split in H as (b & r3 & -> & Hb & H).
    apply words_Cls_Cat in H as (c2 & t & -> & Hc2 & Ht).
    apply at_sign_only in Hc1. apply dot_only in Hc2. subst c1 c2.
    apply words_Plus_Cls in Ha as [Ha1 Ha2].
    apply words_Plus_Cls in Hb as [Hb1 Hb2].
    apply words_Plus_Cls in Ht as [Ht1 Ht2].
    exists a, b, t. repeat split; assumption.
  - intros (a & b & t & -> & Ha1 & Hb1 & Ht1 & Ha2 & Hb2 & Ht2).
    apply words_Cat_split. exists a, ("@" ++ b ++ "." ++ t).
    split; [reflexivity |]. split; [now apply words_Plus_Cls |].
    apply words_Cls_Cat. exists "@"%char, (b ++ "." ++ t).
    split; [reflexivity |]. split; [reflexivity |].
    apply words_Cat_split. exists b, ("." ++ t).
    split; [reflexivity |]. split; [now apply words_Plus_Cls |].
    apply words_Cls_Cat. exists "."%char, t.
    split; [reflexivity |]. split; [reflexivity |].
    now apply words_Plus_Cls.
Qed.

(** X3: [validateEmail] accepts exactly the strings of the shape
    [local@domain.tld] in which the three parts are not empty and hold
    neither white space nor a further [@]; the domain and the last part
    may hold dots. *)
Theorem X3_validateEmail_shape (email : string) :
  isSuccess (validateEmail now email) = true <->
  exists local domain tld : string,
    email = local ++ "@" ++ domain ++ "." ++ tld /\
    local <> EmptyString /\ domain <> EmptyString /\ tld <> EmptyString /\
    Js.every EMAIL.plain_char local = true /\
    Js.every EMAIL.plain_char domain = true /\
    Js.every EMAIL.plain_char tld = true.
Proof.
  rewrite <- EMAIL_PATTERN_spec. unfold validateEmail.
  destruct (blank email) eqn:Hblank.
  - simpl. split; [discriminate |]. intros Htest. exfalso.
    apply EMAIL_PATTERN_spec in Htest
      as (a & b & t & -> & Ha1 & _ & _ & Ha2 & _).
    rewrite blank_spec in Hblank.
    destruct a as [|c a]; [contradiction |].
    simpl in Ha2, Hblank.
    apply andb_prop in Ha2 as [Hc _].
    apply plain_char_not_white_space in Hc.
    rewrite Hc in Hblank. discriminate Hblank.
  - destruct (Js.test EMAIL.PATTERN email); simpl; split;
      first [reflexivity | discriminate | auto].
Qed.

(** X4: [validatePassword] accepts exactly the strings of 8 to 128 code
    units that hold an upper-case letter, a lower-case letter and a
    digit; a special character is not asked for. *)
Theorem X4_validatePassword_rule (password : string) :
  isSuccess (validatePassword now password) = true <->
  (8 <= String.length password <= 128)%nat /\
  Js.some (Js.in_range "A" "Z") password = true /\
  Js.some (Js.in_range "a" "z") password = true /\
  Js.some Js.digit password = true.
Proof.
  unfold validatePassword.
  destruct (Js.falsy_string password || (len password =? 0)%Z) eqn:Hempty.
  { simpl. split; [discriminate |]. intros [[Hmin _] _].
    apply orb_prop in Hempty as [H | H].
    - destruct password; [simpl in Hmin; lia | discriminate H].
    - apply Z.eqb_eq in H. unfold len in H. lia. }
  unfold len, PASSWORD.MIN_LENGTH, PASSWORD.MAX_LENGTH.
  destruct (Z.ltb_spec (Z.of_nat (String.length password)) 8) as [Hlo | Hlo].
  { simpl. split; [discriminate |]. intros [[Hmin _] _]. lia. }
  destruct (Z.of_nat (String.length password) >? 128)%Z eqn:Hhi.
  { simpl. split; [discriminate |]. intros [[_ Hmax] _].
    apply Z.gtb_lt in Hhi. lia. }
  assert (Hmax : (Z.of_nat (String.length password) <= 128)%Z).
  { rewrite Z.gtb_ltb in Hhi. apply Z.ltb_ge in Hhi. exact Hhi. }
  cbv zeta.
  unfold PASSWORD.REQUIRE_UPPERCASE, PASSWORD.REQUIRE_LOWERCASE,
    PASSWORD.REQUIRE_NUMBER, PASSWORD.REQUIRE_SPECIAL,
    uppercase_pattern, lowercase_pattern, number_pattern.
  rewrite !test_search_Cls.
  destruct (Js.some (Js.in_range "A" "Z") password),
    (Js.some (Js.in_range "a" "z") password),
    (Js.some Js.digit password); simpl;
    (split;
     [ intros H; first [discriminate H | repeat split; first [lia | reflexivity]]
     | intros (_ & H1 & H2 & H3);
       first [reflexivity | discriminate H1 | discriminate H2
             | discriminate H3] ]).
Qed.

Lemma not_blank_min_length (s : string) :
  blank s = false -> (len s <? 1)%Z = false.
Proof.
  intros H. apply not_blank_not_empty in H.
  apply Z.ltb_ge. unfold len. destruct s; [contradiction | simpl; lia].
Qed.

Lemma gtb_length (s : string) (n : nat) :
  (len s >? Z.of_nat n)%Z = negb (String.length s <=? n)%nat.
Proof.
  unfold len. rewrite Z.gtb_ltb.
  destruct (Nat.leb_spec (String.length s) n) as [H | H]; simpl.
  - apply Z.ltb_ge. lia.
  - apply Z.ltb_lt. lia.
Qed.

Lemma validatePostContent_accepts (s : string) :
  isSuccess (validatePostContent now s) =
  negb (blank s) && (String.length s <=? 2000)%nat.
Proof.
  unfold validatePostContent.
  destruct (blank s) eqn:Hblank; [reflexivity |].
  unfold POST_CONTENT.MIN_LENGTH, POST_CONTENT.MAX_LENGTH.
  rewrite (not_blank_min_length s Hblank).
  change 2000%Z with (Z.of_nat 2000). rewrite gtb_length.
  destruct (String.length s <=? 2000)%nat; reflexivity.
Qed.

Lemma validateCommentContent_accepts (s : string) :
  isSuccess (validateCommentContent now s) =
  negb (blank s) && (String.length s <=? 500)%nat.
Proof.
  unfold validateCommentContent.
  destruct (blank s) eqn:Hblank; [reflexivity |].
  unfold COMMENT_CONTENT.MIN_LENGTH, COMMENT_CONTENT.MAX_LENGTH.
  rewrite (not_blank_min_length s Hblank).
  change 500%Z with (Z.of_nat 500). rewrite gtb_length.
  destruct (String.length s <=? 500)%nat; reflexivity.
Qed.

Lemma validateBio_accepts (s : string) :
  isSuccess (validateBio now s) = (String.length s <=? 160)%nat.
Proof.
  unfold validateBio, BIO.MAX_LENGTH.
  change 160%Z with (Z.of_nat 160). rewrite gtb_length.
  destruct (String.length s <=? 160)%nat; reflexivity.
Qed.

(** X5: [validatePostContent] and [validateCommentContent] accept
    exactly the strings that are not made of white space only and have
    at most 2000, respectively 500, code units; their test against the
    minimum length never fails, so the at-least message is never
    returned.  [validateBio] accepts exactly the strings of at most 160
    code units, the empty one among them. *)
Theorem X5_text_validators (s : string) :
  (isSuccess (validatePostContent now s) = true <->
   Js.every Js.is_white_space s = false /\ (String.length s <= 2000)%nat) /\
  (isSuccess (validateCommentContent now s) = true <->
   Js.every Js.is_white_space s = false /\ (String.length s <= 500)%nat) /\
  (isSuccess (validateBio now s) = true <-> (String.length s <= 160)%nat) /\
  (forall e, validatePostContent now s = Failure e ->
             ve_message e <> "Post must be at least 1 character") /\
  (forall e, validateCommentContent now s = Failure e ->
             ve_message e <> "Comment must be at least 1 character").
Proof.
  rewrite validatePostContent_accepts, validateCommentContent_accepts,
    validateBio_accepts, <- blank_spec.
  rewrite !andb_true_iff, !negb_true_iff, !Nat.leb_le.
  split; [tauto |]. split; [tauto |]. split; [tauto |].
  split; intros e;
    [ unfold validatePostContent, POST_CONTENT.MIN_LENGTH
    | unfold validateCommentContent, COMMENT_CONTENT.MIN_LENGTH ];
    (destruct (blank s) eqn:Hblank;
     [ intros H; injection H as <-; discriminate
     | rewrite (not_blank_min_length s Hblank);
       match goal with
       | |- context [if ?b then _ else _] => destruct b
       end;
       intros H; first [discriminate H | injection H as <-; discriminate] ]).
Qed.

End FieldValidatorFacts.

(* ================================================================== *)
(** * Further facts: media files and the composite validators          *)
(* ================================================================== *)

Section CompositeValidatorFacts.

Import Api Validation Properties.
Import VALIDATION_CONSTRAINTS.

Variable now : string.
Variable url_parses : string -> bool.


Lemma validateMediaUrl_raw (url : string) (data : ValidMediaUrl) :
  validateMediaUrl now url_parses url = Success data -> raw data = url.
Proof.
  unfold validateMediaUrl.
  destruct (blank url), (url_parses url); simpl; intros H;
    first [discriminate H | now injection H as <-].
Qed.

Lemma validateEmail_raw (s : string) (data : ValidEmail) :
  validateEmail now s = Success data -> raw data = s.
Proof.
  unfold validateEmail.
  repeat match goal with
         | |- context [if ?b then _ else _] => destruct b
         end;
    simpl; intros H; first [discriminate H | now injection H as <-].
Qed.

Lemma validateUsername_raw (s : string) (data : ValidUsername) :
  validateUsername now s = Success data -> raw data = s.
Proof.
  unfold validateUsername.
  repeat match goal with
         | |- context [if ?b then _ else _] => destruct b
         end;
    simpl; intros H; first [discriminate H | now injection H as <-].
Qed.

Lemma validatePassword_raw (s : string) (data : ValidPassword) :
  validatePassword now s = Success data -> raw data = s.
Proof.
  unfold validatePassword; cbv zeta.
  repeat match goal with
         | |- context [if ?b then _ else _] => destruct b
         end;
    simpl; intros H; first [discriminate H | now injection H as <-].
Qed.



(** X7: [validateSignupInput] succeeds exactly when the email, the
    username and the password pass their validators and the
    confirmation equals the password; the result carries the three
    inputs unchanged.  It fails fast: the error returned is that of the
    first check that fails, in the order email, username, password,
    confirmation. *)
Theorem X7_validateSignupInput (input : SignupInput) :
  (isSuccess (validateSignupInput now input) = true <->
   isSuccess (validateEmail now (email input)) = true /\
   isSuccess (validateUsername now (username input)) = true /\
   isSuccess (validatePassword now (password input)) = true /\
   password input = password_confirmation input) /\
  (forall out : ValidatedSignupInput,
     validateSignupInput now input = Success out ->
     raw (v_email out) = email input /\
     raw (v_username out) = username input /\
     raw (v_password out) = password input) /\
  (forall e : ValidationError,
     validateSignupInput now input = Failure e ->
     validateEmail now (email input) = Failure e \/
     (isSuccess (validateEmail now (email input)) = true /\
      (validateUsername now (username input) = Failure e \/
       (isSuccess (validateUsername now (username input)) = true /\
        (validatePassword now (password input) = Failure e \/
         (isSuccess (validatePassword now (password input)) = true /\
          password input <> password_confirmation input /\
          e = validationError now "Passwords do not match"
                (Some "password_confirmation") None)))))).
Proof.
  unfold validateSignupInput, validatePasswordsMatch.
  destruct (validateEmail now (email input)) as [em | e1] eqn:Hemail;
    [| simpl; split; [split; [discriminate | intros [H _]; discriminate H] |];
       split; [discriminate | intros e H; left; injection H as <-; reflexivity] ].
  destruct (validateUsername now (username input)) as [us | e2] eqn:Huser;
    [| simpl; split;
       [split; [discriminate | intros (_ & H & _); discriminate H] |];
       split; [discriminate | intros e H; right; split; [reflexivity |];
                               left; injection H as <-; reflexivity] ].
  destruct (validatePassword now (password input)) as [pw | e3] eqn:Hpass;
    [| simpl; split;
       [split; [discriminate | intros (_ & _ & H & _); discriminate H] |];
       split; [discriminate
              | intros e H; right; split; [reflexivity |];
                right; split; [reflexivity |]; left; injection H as <-; reflexivity] ].
  destruct (String.eqb_spec (password input) (password_confirmation input))
    as [Heq | Hne]; simpl.
  - split; [split; [intros _; repeat split; assumption | reflexivity] |].
    split; [| discriminate].
    intros out H. injection H as <-. simpl.
    split; [eapply validateEmail_raw; eassumption |].
    split; [eapply validateUsername_raw; eassumption
           | eapply validatePassword_raw; eassumption].
  - split; [split; [discriminate | intros (_ & _ & _ & H); contradiction] |].
    split; [discriminate |].
    intros e H. injection H as <-.
    right. split; [reflexivity |]. right. split; [reflexivity |].
    right. split; [reflexivity |]. split; [exact Hne | reflexivity].
Qed.

(** X8: [validateLoginInput] succeeds exactly when the email passes
    [validateEmail] and the password is not the empty string: the
    password is required but not checked against the password rule,
    and it is returned as it was given. *)
Theorem X8_validateLoginInput (input : LoginInput) :
  (isSuccess (validateLoginInput now input) = true <->
   isSuccess (validateEmail now (login_email input)) = true /\
   login_password input <> EmptyString) /\
  (forall out : ValidatedLoginInput,
     validateLoginInput now input = Success out ->
     raw (v_login_email out) = login_email input /\
     v_login_password out = login_password input).
Proof.
  unfold validateLoginInput.
  destruct (validateEmail now (login_email input)) as [em | e] eqn:Hemail;
    [| simpl; split; [split; [discriminate | intros [H _]; discriminate H]
                     | discriminate] ].
  destruct (login_password input) as [|c rest]; simpl.
  - split; [split; [discriminate | intros [_ H]; contradiction] | discriminate].
  - split; [split; [intros _; split; [reflexivity | discriminate]
                   | reflexivity] |].
    intros out H. injection H as <-. simpl.
    split; [eapply validateEmail_raw; eassumption | reflexivity].
Qed.

(** X9: [validateCreatePostInput] succeeds exactly when the content
    passes and, if a non-empty [media_url] is given, it passes
    [validateMediaUrl] and so does a non-empty [thumbnail_url].
    Without a [media_url] the thumbnail is neither validated nor kept:
    the result holds the content alone. *)
Theorem X9_validateCreatePostInput (input : CreatePostInput) :
  isSuccess (validateCreatePostInput now url_parses input) =
    isSuccess (validatePostContent now (content input)) &&
    match truthy (media_url input) with
    | None => true
    | Some url =>
        isSuccess (validateMediaUrl now url_parses url) &&
        match truthy (thumbnail_url input) with
        | None => true
        | Some thumbnail =>
            isSuccess (validateMediaUrl now url_parses thumbnail)
        end
    end /\
  (truthy (media_url input) = None ->
   forall out : ValidatedCreatePostInput,
     validateCreatePostInput now url_parses input = Success out ->
     validatePostContent now (content input) = Success (v_content out) /\
     v_media_url out = None /\ v_media_type out = None /\
     v_thumbnail_url out = None) /\
  (forall (out : ValidatedCreatePostInput) (thumbnail : ValidMediaUrl),
     validateCreatePostInput now url_parses input = Success out ->
     v_thumbnail_url out = Some thumbnail ->
     thumbnail_url input = Some (raw thumbnail) /\
     v_media_url out <> None).
Proof.
  unfold validateCreatePostInput.
  destruct (validatePostContent now (content input)) as [c | e];
    [| simpl; split; [reflexivity |];
       split; intros; discriminate ].
  destruct (truthy (media_url input)) as [url |]; simpl.
  - destruct (validateMediaUrl now url_parses url) as [u | e]; simpl;
      [| split; [reflexivity |]; split; intros; discriminate ].
    destruct (thumbnail_url input) as [[|ch rest] |]; simpl.
    + split; [reflexivity |]. split; [discriminate |].
      intros out th H. injection H as <-. discriminate.
    + destruct (validateMediaUrl now url_parses (String ch rest))
        as [t | e] eqn:Ht; simpl;
        [| split; [reflexivity |]; split; intros; discriminate ].
      split; [reflexivity |]. split; [discriminate |].
      intros out th H. injection H as <-. simpl. intros Hth.
      injection Hth as <-.
      rewrite (validateMediaUrl_raw _ _ Ht). split; [reflexivity | discriminate].
    + split; [reflexivity |]. split; [discriminate |].
      intros out th H. injection H as <-. discriminate.
  - split; [reflexivity |]. split.
    + intros _ out H. injection H as <-. repeat split.
    + intros out th H. injection H as <-. discriminate.
Qed.

End CompositeValidatorFacts.

(* ================================================================== *)
(** * Further facts: the normalizers and their messages                *)
(* ================================================================== *)

Section MoreNormalizerFacts.

Import ErrorHandler Properties.

Variable now : Date.


(** The test of the code in [parseSupabaseError], as two comparisons. *)
Lemma code_table_cases (A : Type) (cv : JsValue) (a b c : A) :
  match cv with
  | JsString "23505" => a
  | JsString "23503" => b
  | _ => c
  end =
  match cv with
  | JsString s =>
      if String.eqb s "23505" then a
      else if String.eqb s "23503" then b else c
  | _ => c
  end.
Proof.
  destruct cv as [ | | x | n | s | ps | m ps | e ]; try reflexivity.
  do 6 (destruct s as [|[[] [] [] [] [] [] [] []] s]; try reflexivity).
Qed.

(** The default message holds none of the phrases looked for. *)
Lemma default_message_has_no_phrase (text : string) :
  let used := or_string text "Database operation failed" in
  Js.includes used "Invalid login credentials" =
    Js.includes text "Invalid login credentials" /\
  Js.includes used "JWT" = Js.includes text "JWT" /\
  Js.includes used "token" = Js.includes text "token" /\
  Js.includes used "permission denied" =
    Js.includes text "permission denied" /\
  Js.includes used "RLS" = Js.includes text "RLS".
Proof.
  destruct text; repeat split.
Qed.

(** What [parseSupabaseError] returns, kind by kind. *)
Lemma parseSupabaseError_outcomes
    (error : JsValue) (ctx : option string) (text : string) :
  supabase_message_text error = Some text ->
  exists e : AppError,
    parseSupabaseError now error ctx = Returns e /\
    In (code e, message e)
      [ (INVALID_CREDENTIALS, "Invalid email or password");
        (SESSION_EXPIRED, "Your session has expired. Please log in again.");
        (DUPLICATE_ENTRY, "This item already exists");
        (NOT_FOUND, "Referenced item not found");
        (FORBIDDEN, "You do not have permission to perform this action");
        (DATABASE_ERROR, or_string text "Database operation failed") ] /\
    (names_authentication text = false ->
     optional_get error key_code <> JsString "23505" ->
     optional_get error key_code <> JsString "23503" ->
     code e =
       if Js.includes text "permission denied" || Js.includes text "RLS"
       then FORBIDDEN else DATABASE_ERROR) /\
    isOperational e = true /\
    context (metadata e) = ctx /\
    extra (metadata e) =
      [ ("code", optional_get error key_code);
        ("details", optional_get error key_details) ].
Proof.
  intros Hmessage. unfold parseSupabaseError.
  rewrite (supabase_message error text Hmessage).
  rewrite code_table_cases.
  destruct (default_message_has_no_phrase text) as (-> & -> & -> & -> & ->).
  unfold names_authentication.
  destruct (Js.includes text "Invalid login credentials"),
    (Js.includes text "JWT"), (Js.includes text "token");
    try (eexists; split; [reflexivity |];
         split; [simpl; tauto |];
         split; [intros H; discriminate H |]; repeat split; fail).
  simpl orb.
  destruct (optional_get error key_code) as [ | | x | n | s | ps | m ps | e ];
    try (destruct (Js.includes text "permission denied"),
           (Js.includes text "RLS");
         eexists; (split; [reflexivity |]);
         (split; [simpl; tauto |]); repeat split; fail).
  destruct (String.eqb_spec s "23505") as [-> | H5].
  { eexists. split; [reflexivity |]. split; [simpl; tauto |].
    split; [intros _ H; contradiction |]. repeat split. }
  destruct (String.eqb_spec s "23503") as [-> | H3].
  { eexists. split; [reflexivity |]. split; [simpl; tauto |].
    split; [intros _ _ H; contradiction |]. repeat split. }
  destruct (Js.includes text "permission denied"), (Js.includes text "RLS");
    eexists; (split; [reflexivity |]);
    (split; [simpl; tauto |]); repeat split.
Qed.

(** X11: on every failure object whose message is a string or absent,
    [parseSupabaseError] returns one of six kinds.  The backend's own
    message reaches the result for the database kind only (the default
    text when there is none); the five other kinds have fixed messages.
    After the authentication phrases and the two codes, a message with
    ['permission denied'] or ['RLS'] gives the forbidden kind and any
    other the database kind.  The backend's [code] and [details] and
    the caller's context are always kept in the metadata. *)
Theorem X11_parseSupabaseError_outcomes
    (error : JsValue) (ctx : option string) (text : string) :
  supabase_message_text error = Some text ->
  exists e : AppError,
    parseSupabaseError now error ctx = Returns e /\
    In (code e, message e)
      [ (INVALID_CREDENTIALS, "Invalid email or password");
        (SESSION_EXPIRED, "Your session has expired. Please log in again.");
        (DUPLICATE_ENTRY, "This item already exists");
        (NOT_FOUND, "Referenced item not found");
        (FORBIDDEN, "You do not have permission to perform this action");
        (DATABASE_ERROR, or_string text "Database operation failed") ] /\
    (names_authentication text = false ->
     optional_get error key_code <> JsString "23505" ->
     optional_get error key_code <> JsString "23503" ->
     code e =
       if Js.includes text "permission denied" || Js.includes text "RLS"
       then FORBIDDEN else DATABASE_ERROR) /\
    isOperational e = true /\
    context (metadata e) = ctx /\
    extra (metadata e) =
      [ ("code", optional_get error key_code);
        ("details", optional_get error key_details) ].
Proof.
  exact (parseSupabaseError_outcomes error ctx text).
Qed.



(** X13: [getUserFriendlyMessage] never returns the empty string, and
    never its last-resort text.  Its [defaultMessage] matters for the
    validation and the unknown kind only, where a non-empty one is
    returned as it is; for every other kind the result is the fixed
    text of the kind. *)
Theorem X13_getUserFriendlyMessage (c : ErrorCode) :
  (forall d : option string,
     getUserFriendlyMessage c d <> EmptyString /\
     (getUserFriendlyMessage c d = "An error occurred. Please try again." ->
      d = Some "An error occurred. Please try again.")) /\
  (c <> VALIDATION_ERROR -> c <> UNKNOWN_ERROR ->
   forall d : option string,
     getUserFriendlyMessage c d = getUserFriendlyMessage c None) /\
  (c = VALIDATION_ERROR \/ c = UNKNOWN_ERROR ->
   forall (ch : ascii) (rest : string),
     getUserFriendlyMessage c (Some (String ch rest)) = String ch rest).
Proof.
  split; [| split].
  - intros d. unfold getUserFriendlyMessage.
    destruct c; destruct d as [[|ch rest] |];
      cbv [or_string Js.falsy_string];
      split; try discriminate; try (intros H; now rewrite H).
  - intros Hv Hu d. destruct c; try reflexivity; contradiction.
  - intros [-> | ->] ch rest; reflexivity.
Qed.

(** X14: what the user reads after [parseSupabaseError] depends on the
    resulting kind alone and is never the backend's message, not even
    for the database kind that keeps that message in the error. *)
Theorem X14_backend_text_is_not_shown
    (error : JsValue) (ctx : option string) (text : string) :
  supabase_message_text error = Some text ->
  exists e : AppError,
    parseSupabaseError now error ctx = Returns e /\
    getUserMessage e = getUserFriendlyMessage (code e) None /\
    In (getUserMessage e)
      [ "Invalid email or password. Please try again.";
        "Your session has expired. Please log in again.";
        "This item already exists.";
        "Item not found.";
        "You do not have permission to perform this action.";
        "Something went wrong. Please try again." ].
Proof.
  intros Hmessage.
  destruct (parseSupabaseError_outcomes error ctx text Hmessage)
    as (e & Hrun & Hin & _).
  exists e. split; [exact Hrun |].
  unfold getUserMessage. simpl in Hin.
  repeat (destruct Hin as [Hin | Hin];
          [ injection Hin as Hc Hm; rewrite <- Hc; simpl; tauto |]).
  contradiction.
Qed.

End MoreNormalizerFacts.

Section WrapperFacts.

Import ErrorHandler.


End WrapperFacts.

Section ConversionFacts.

Import ErrorHandler ApiConversion.

(** The codes of [errorHandler.ts] that name no member of the
    [ErrorCode] of [api.ts]. *)
Lemma foreign_codes (c : ErrorCode) :
  In c [ API_ERROR; INVALID_EMAIL; INVALID_PASSWORD; CONTENT_TOO_LONG;
         CONTENT_EMPTY; MEDIA_COMPRESSION_FAILED; NOT_FOUND;
         DUPLICATE_ENTRY ] <->
  forall a : Api.ErrorCode, Api.ErrorCode_value a <> ErrorCode_value c.
Proof.
  split.
  - intros H a. simpl in H.
    repeat (destruct H as [<- | H]; [destruct a; discriminate |]).
    contradiction.
  - intros H. destruct c; simpl;
      first [ tauto
            | exfalso; apply (H Api.NETWORK_ERROR); reflexivity
            | exfalso; apply (H Api.TIMEOUT_ERROR); reflexivity
            | exfalso; apply (H Api.UNAUTHORIZED); reflexivity
            | exfalso; apply (H Api.FORBIDDEN); reflexivity
            | exfalso; apply (H Api.SESSION_EXPIRED); reflexivity
            | exfalso; apply (H Api.INVALID_CREDENTIALS); reflexivity
            | exfalso; apply (H Api.VALIDATION_ERROR); reflexivity
            | exfalso; apply (H Api.MEDIA_UPLOAD_FAILED); reflexivity
            | exfalso; apply (H Api.MEDIA_TOO_LARGE); reflexivity
            | exfalso; apply (H Api.INVALID_MEDIA_TYPE); reflexivity
            | exfalso; apply (H Api.DATABASE_ERROR); reflexivity
            | exfalso; apply (H Api.UNKNOWN_ERROR); reflexivity ].
Qed.

(** X16: [toApiError] hands back, unchecked, every object that has a
    [code] property, so an [AppError] of [errorHandler.ts] passes as an
    [ApiError] even when its code (one of eight) names no member of the
    [ErrorCode] of [api.ts].  A value without a [code] becomes a
    generic error of the unknown kind: with the message of an instance
    of [Error] and its stack as [original_error], and with the fixed
    message for anything else, a thrown string included. *)
Theorem X16_toApiError (now : string) (v : JsValue) :
  (object_with_code v = true -> toApiError now v = as_given v) /\
  (forall e : AppError,
     toApiError now (JsAppError e) = as_given (JsAppError e) /\
     (In (code e)
        [ API_ERROR; INVALID_EMAIL; INVALID_PASSWORD; CONTENT_TOO_LONG;
          CONTENT_EMPTY; MEDIA_COMPRESSION_FAILED; NOT_FOUND;
          DUPLICATE_ENTRY ] ->
      forall a : Api.ErrorCode,
        optional_get (JsAppError e) key_code
        <> JsString (Api.ErrorCode_value a))) /\
  (object_with_code v = false ->
   exists g : Api.GenericError,
     toApiError now v = built g /\
     Api.ge_code g = Api.G_UNKNOWN_ERROR /\
     Api.ge_timestamp g = now /\
     match v with
     | JsError text properties =>
         Api.ge_message g = text /\
         Api.ge_original_error g = stack_of properties
     | _ =>
         Api.ge_message g = "An unknown error occurred" /\
         Api.ge_original_error g = None
     end).
Proof.
  split; [| split].
  - intros H. unfold toApiError. now rewrite H.
  - intros e. split; [reflexivity |].
    intros Hin a Heq. simpl in Heq. injection Heq as Heq.
    exact (proj1 (foreign_codes (code e)) Hin a (eq_sym Heq)).
  - intros H. unfold toApiError. rewrite H.
    destruct v; eexists; (split; [reflexivity |]); repeat split.
Qed.

End ConversionFacts.

(* ================================================================== *)
(** * Further facts: the hooks                                         *)
(* ================================================================== *)

Section HookFacts.

Import ErrorHandler Hooks Properties HookProperties.

Variable T : Type.
Variable now : Date.

Ltac run_hook :=
  unfold run_call, execute, reset, handleError, handleSupabaseError,
    handleNetworkError, showErrorAlert, clearError, try_finally, try_catch,
    bind, lift, ret, call_if_given, setLoading, setData, setErrorState,
    Alert_alert, default; simpl.

Ltac settle_effect :=
  split; first [ left; reflexivity
               | right; left; reflexivity
               | right; right; eexists; reflexivity
               | right; eexists; split; reflexivity ].

(** What one call does to the error slot and to the alerts: the slot is
    left alone, cleared or filled, and an alert is added only for the
    error that fills the slot, with the single button OK. *)
Lemma call_effect (call : HookCall T) (st : HookState T) :
  let st' := snd (run_call now call st) in
  (errorState T st' = errorState T st \/ errorState T st' = clear \/
   exists e, errorState T st' = holding e) /\
  (alerts T st' = alerts T st \/
   exists e, errorState T st' = holding e /\
             alerts T st' = (alerts T st ++ [plain_alert e])%list).
Proof.
  cbv zeta.
  destruct call as [ | v o | v o | v o | operation o args | ]; run_hook;
    rewrite ?andb_false_r.
  - split; [right; left; reflexivity | left; reflexivity].
  - destruct (onError o) as [f |]; simpl;
      [destruct (f _) as [[] | w]; simpl |];
      try (destruct (showAlert o) as [[|] |]; simpl); settle_effect.
  - destruct (parseSupabaseError now v (Hooks.context o)) as [e | t]; simpl;
      [| settle_effect].
    destruct (onError o) as [f |]; simpl;
      [destruct (f _) as [[] | w]; simpl |];
      try (destruct (showAlert o) as [[|] |]; simpl); settle_effect.
  - destruct (parseNetworkError now v (Hooks.context o)) as [e | t]; simpl;
      [| settle_effect].
    destruct (onError o) as [f |]; simpl;
      [destruct (f _) as [[] | w]; simpl |];
      try (destruct (showAlert o) as [[|] |]; simpl); settle_effect.
  - destruct (operation args) as [x | w]; simpl;
      [ destruct (onSuccess T o) as [f |]; simpl;
        [destruct (f x) as [[] | w]; simpl |] |];
      try (destruct (showAlert (base T o)) as [[|] |]; simpl); settle_effect.
  - split; [right; left; reflexivity | left; reflexivity].
Qed.

Lemma slot_consistent_kept (call : HookCall T) (st : HookState T) :
  slot_consistent (errorState T st) = true ->
  slot_consistent (errorState T (snd (run_call now call st))) = true.
Proof.
  intros H. destruct (call_effect call st) as [[-> | [-> | [e ->]]] _];
    [exact H | reflexivity | reflexivity].
Qed.

(** X17: after any sequence of calls of [clearError], [handleError],
    [handleSupabaseError], [handleNetworkError], [execute] and [reset],
    started from the initial state, [hasError] is true exactly when
    there is an error; this holds also when callbacks or parsers throw
    in between. *)
Theorem X17_hasError_follows_error (calls : list (HookCall T)) :
  let st := run_calls now calls (initial T) in
  hasError (errorState T st) = true <-> error (errorState T st) <> None.
Proof.
  cbv zeta.
  assert (H : slot_consistent (errorState T (run_calls now calls (initial T)))
              = true).
  { assert (Hgen : forall st, slot_consistent (errorState T st) = true ->
              slot_consistent (errorState T (run_calls now calls st)) = true).
    { induction calls as [|call rest IH]; intros st Hst; simpl; [exact Hst |].
      apply IH. now apply slot_consistent_kept. }
    apply Hgen. reflexivity. }
  unfold slot_consistent in H.
  destruct (hasError _), (error _); simpl in H;
    split; intros; congruence.
Qed.

(** X18: the alerts raised through [handleError], [handleSupabaseError],
    [handleNetworkError] and [execute] never offer a retry: each has
    the single button OK, whatever [retryable] option was passed,
    because no handler passes [onRetry].  [showErrorAlert] itself shows
    Cancel and Retry exactly when it is called with [retryable] true
    and an [onRetry], and OK alone otherwise. *)
Theorem X18_alerts_offer_no_retry (calls : list (HookCall T)) :
  Forall (fun a => alert_buttons a = [ok_button])
    (alerts T (run_calls now calls (initial T))) /\
  (forall (e : AppError) (retryable : option bool) (onRetry : bool)
          (st : HookState T),
     exists a : AlertCall,
       alerts T (snd (showErrorAlert T e retryable onRetry st))
       = (alerts T st ++ [a])%list /\
       alert_title a = getErrorTitle (code e) /\
       alert_message a = getUserMessage e /\
       List.map text (alert_buttons a) =
         if match retryable with Some true => onRetry | _ => false end
         then ["Cancel"; "Retry"] else ["OK"]).
Proof.
  split.
  - assert (Hgen : forall st,
              Forall (fun a => alert_buttons a = [ok_button]) (alerts T st) ->
              Forall (fun a => alert_buttons a = [ok_button])
                (alerts T (run_calls now calls st))).
    { induction calls as [|call rest IH]; intros st Hst; simpl; [exact Hst |].
      apply IH.
      destruct (call_effect call st) as [_ [-> | (e & _ & ->)]];
        [exact Hst |].
      apply Forall_app. split; [exact Hst |].
      constructor; [reflexivity | constructor]. }
    apply Hgen. constructor.
  - intros e retryable onRetry st.
    unfold showErrorAlert, Alert_alert, default. simpl.
    destruct retryable as [[|] |], onRetry; simpl;
      eexists; (split; [reflexivity |]); repeat split.
Qed.



End HookFacts.

Section FormErrorFacts.

Import Hooks ModelProperties.
















End FormErrorFacts.

(* ================================================================== *)
(** * Further facts: the guards of the data model                      *)
(* ================================================================== *)

Section ModelFacts.

Import Models ModelProperties.

(** X23: the guards on posts narrow soundly and partition the posts:
    each of [isPostWithImage], [isPostWithVideo] and
    [isPostWithoutMedia] is true exactly on the posts of its interface,
    also for a media URL that is the empty string, and [hasMedia] is
    the negation of [isPostWithoutMedia].  [isReactionType] is true
    exactly on the five values of [ReactionType]. *)
Theorem X23_model_guards :
  (forall post : Post,
     (isPostWithImage post = true <->
      exists base url, post = PostWithImage base url) /\
     (isPostWithVideo post = true <->
      exists base url thumbnail, post = PostWithVideo base url thumbnail) /\
     (isPostWithoutMedia post = true <->
      exists base, post = PostWithoutMedia base) /\
     hasMedia post = negb (isPostWithoutMedia post)) /\
  (forall value : string,
     isReactionType value = true <->
     exists r : ReactionType, value = ReactionType_value r).
Proof.
  split.
  - intros [base url | base url thumbnail | base];
      cbv [isPostWithImage isPostWithVideo isPostWithoutMedia hasMedia
           media_type Models.media_url is_literal not_truthy];
      simpl; repeat split; intros H;
      first [ discriminate H
            | reflexivity
            | eexists; reflexivity
            | eexists; eexists; reflexivity
            | eexists; eexists; eexists; reflexivity
            | destruct H as (? & ? & ? & H); discriminate H
            | destruct H as (? & ? & H); discriminate H
            | destruct H as (? & H); discriminate H ].
  - intros value. unfold isReactionType, Js.array_includes. simpl.
    rewrite !orb_true_iff, !String.eqb_eq. split.
    + intros [-> | [-> | [-> | [-> | [-> | H]]]]];
        [ exists heart | exists thumbs_up | exists laugh | exists fire
        | exists surprised | discriminate H ]; reflexivity.
    + intros [[] ->]; simpl; tauto.
Qed.

(** A repetition of a class. *)
Lemma words_Times_Cls (p : ascii -> bool) (n : nat) (s : string) :
  Js.words (Js.Times n (Js.Cls p)) s <-> run_of p n s.
Proof.
  unfold run_of. revert s. induction n as [|n IH]; intros s; simpl.
  - rewrite words_Eps_empty. split.
    + intros ->. split; reflexivity.
    + intros [H _]. destruct s; [reflexivity | discriminate H].
  - rewrite words_Cls_Cat. split.
    + intros (c & rest & -> & Hc & Hrest). apply IH in Hrest as [Hn He].
      simpl. rewrite Hc, He, Hn. split; reflexivity.
    + intros [Hn He]. destruct s as [|c rest]; [discriminate Hn |].
      simpl in Hn, He. apply andb_prop in He as [Hc He].
      exists c, rest. split; [reflexivity |]. split; [exact Hc |].
      apply IH. split; [now injection Hn | exact He].
Qed.

(** A run of a class followed by a literal and more. *)
Lemma words_run_then (p : ascii -> bool) (n : nat) (c : ascii)
    (q : ascii -> bool) (r : Js.regex) (s : string) :
  (forall x, q x = Ascii.eqb c x) ->
  Js.words (Js.Cat (Js.Times n (Js.Cls p)) (Js.Cat (Js.Cls q) r)) s <->
  exists a rest,
    s = a ++ String c rest /\ run_of p n a /\ Js.words r rest.
Proof.
  intros Hq. rewrite words_Cat_split. split.
  - intros (a & t & -> & Ha & Ht).
    apply words_Times_Cls in Ha.
    apply words_Cls_Cat in Ht as (x & rest & -> & Hx & Hrest).
    rewrite Hq in Hx. apply Ascii.eqb_eq in Hx. subst x.
    exists a, rest. auto.
  - intros (a & rest & -> & Ha & Hrest).
    exists a, (String c rest). split; [reflexivity |].
    split; [now apply words_Times_Cls |].
    apply words_Cls_Cat. exists c, rest.
    split; [reflexivity |]. split; [| exact Hrest].
    rewrite Hq. apply Ascii.eqb_refl.
Qed.

Lemma ignore_case_hex (c : ascii) :
  Js.ignore_case hex_lower c = hex_digit c.
Proof.
  destruct c as [b0 b1 b2 b3 b4 b5 b6 b7].
  destruct b0, b1, b2, b3, b4, b5, b6, b7; vm_compute; reflexivity.
Qed.

Lemma ignore_case_dash (c : ascii) :
  Js.ignore_case (Ascii.eqb "-") c = Ascii.eqb "-" c.
Proof.
  destruct c as [b0 b1 b2 b3 b4 b5 b6 b7].
  destruct b0, b1, b2, b3, b4, b5, b6, b7; vm_compute; reflexivity.
Qed.

Lemma every_ext (p q : ascii -> bool) (s : string) :
  (forall c, p c = q c) -> Js.every p s = Js.every q s.
Proof.
  intros H. induction s as [|c s IH]; simpl; [reflexivity |].
  now rewrite H, IH.
Qed.

Lemma run_of_ext (p q : ascii -> bool) (n : nat) (s : string) :
  (forall c, p c = q c) -> run_of p n s <-> run_of q n s.
Proof.
  intros H. unfold run_of. now rewrite (every_ext p q s H).
Qed.

(** X24: [isUUID] accepts exactly the strings made of five groups of 8,
    4, 4, 4 and 12 hexadecimal digits joined by hyphens; the digits may
    be in either case, and nothing but the shape is checked. *)
Theorem X24_isUUID_shape (value : string) :
  isUUID value = true <->
  exists a b c d e : string,
    value = a ++ "-" ++ b ++ "-" ++ c ++ "-" ++ d ++ "-" ++ e /\
    run_of hex_digit 8 a /\ run_of hex_digit 4 b /\ run_of hex_digit 4 c /\
    run_of hex_digit 4 d /\ run_of hex_digit 12 e.
Proof.
  unfold isUUID, uuidRegex. cbv zeta. rewrite test_anchored.
  pose proof ignore_case_dash as Hdash.
  pose proof ignore_case_hex as Hhex.
  split.
  - intros H.
    apply (words_run_then _ _ "-") in H as (a & r1 & -> & Ha & H); [| exact Hdash].
    apply (words_run_then _ _ "-") in H as (b & r2 & -> & Hb & H); [| exact Hdash].
    apply (words_run_then _ _ "-") in H as (c & r3 & -> & Hc & H); [| exact Hdash].
    apply (words_run_then _ _ "-") in H as (d & e & -> & Hd & He); [| exact Hdash].
    apply words_Times_Cls in He.
    exists a, b, c, d, e. split; [reflexivity |].
    repeat split;
      match goal with
      | H : run_of (Js.ignore_case hex_lower) ?n ?s |- _ ?s =>
          apply (run_of_ext _ _ n s Hhex) in H; apply H
      | H : run_of (Js.ignore_case hex_lower) ?n ?s |- _ ?s = _ =>
          apply (run_of_ext _ _ n s Hhex) in H; apply H
      end.
  - intros (a & b & c & d & e & -> & Ha & Hb & Hc & Hd & He).
    apply (run_of_ext _ _ _ _ Hhex) in Ha, Hb, Hc, Hd, He.
    apply (words_run_then _ _ "-"); [exact Hdash |].
    exists a, (b ++ "-" ++ c ++ "-" ++ d ++ "-" ++ e).
    split; [reflexivity |]. split; [exact Ha |].
    apply (words_run_then _ _ "-"); [exact Hdash |].
    exists b, (c ++ "-" ++ d ++ "-" ++ e).
    split; [reflexivity |]. split; [exact Hb |].
    apply (words_run_then _ _ "-"); [exact Hdash |].
    exists c, (d ++ "-" ++ e).
    split; [reflexivity |]. split; [exact Hc |].
    apply (words_run_then _ _ "-"); [exact Hdash |].
    exists d, e.
    split; [reflexivity |]. split; [exact Hd |].
    now apply words_Times_Cls.
Qed.

End ModelFacts.

Section DateFacts.

Import Models ModelProperties.

Lemma words_Opt (r : Js.regex) (s : string) :
  Js.words (Js.Opt r) s <-> s = EmptyString \/ Js.words r s.
Proof.
  unfold Js.Opt. rewrite words_Alt_or, words_Eps_empty. tauto.
Qed.

(** The seconds, the optional milliseconds and the optional [Z]. *)
Lemma words_seconds_tail (s : string) :
  Js.words
    (Js.Cat (Js.Times 2 (Js.Cls Js.digit))
       (Js.Cat
          (Js.Opt (Js.Cat (Js.Cls (Ascii.eqb "."))
                     (Js.Times 3 (Js.Cls Js.digit))))
          (Js.Opt (Js.Cls (Ascii.eqb "Z"))))) s <->
  exists seconds fraction zone : string,
    s = seconds ++ fraction ++ zone /\
    run_of Js.digit 2 seconds /\
    (fraction = EmptyString \/
     exists f, fraction = "." ++ f /\ run_of Js.digit 3 f) /\
    (zone = EmptyString \/ zone = "Z").
Proof.
  rewrite words_Cat_split. split.
  - intros (sec & t & -> & Hsec & Ht).
    apply words_Times_Cls in Hsec.
    apply words_Cat_split in Ht as (fr & z & -> & Hfr & Hz).
    exists sec, fr, z. split; [reflexivity |]. split; [exact Hsec |].
    split.
    + apply words_Opt in Hfr as [-> | Hfr]; [now left | right].
      apply words_Cls_Cat in Hfr as (x & f & -> & Hx & Hf).
      apply Ascii.eqb_eq in Hx. subst x.
      exists f. split; [reflexivity | now apply words_Times_Cls].
    + apply words_Opt in Hz as [-> | Hz]; [now left | right].
      apply words_Cls_single in Hz as (x & -> & Hx).
      apply Ascii.eqb_eq in Hx. now subst x.
  - intros (sec & fr & z & -> & Hsec & Hfr & Hz).
    exists sec, (fr ++ z). split; [reflexivity |].
    split; [now apply words_Times_Cls |].
    apply words_Cat_split. exists fr, z. split; [reflexivity |].
    split; apply words_Opt.
    + destruct Hfr as [-> | (f & -> & Hf)]; [now left | right].
      apply words_Cls_Cat. exists "."%char, f.
      split; [reflexivity |]. split; [reflexivity |].
      now apply words_Times_Cls.
    + destruct Hz as [-> | ->]; [now left | right].
      now constructor.
Qed.

(** X25: [isISODateString] accepts exactly the strings
    [YYYY-MM-DDThh:mm:ss] of digits, optionally followed by a dot and
    three digits and optionally by [Z].  Only the shape is checked: the
    digits are not held to the range of a month, a day or an hour, and
    a time-zone offset is not accepted. *)
Theorem X25_isISODateString_shape (value : string) :
  isISODateString value = true <->
  exists year month day hours minutes seconds fraction zone : string,
    value = year ++ "-" ++ month ++ "-" ++ day ++ "T" ++
            hours ++ ":" ++ minutes ++ ":" ++ seconds ++ fraction ++ zone /\
    run_of Js.digit 4 year /\ run_of Js.digit 2 month /\
    run_of Js.digit 2 day /\ run_of Js.digit 2 hours /\
    run_of Js.digit 2 minutes /\ run_of Js.digit 2 seconds /\
    (fraction = EmptyString \/
     exists f, fraction = "." ++ f /\ run_of Js.digit 3 f) /\
    (zone = EmptyString \/ zone = "Z").
Proof.
  unfold isISODateString, isoDateRegex. cbv zeta. rewrite test_anchored.
  split.
  - intros H.
    apply (words_run_then _ _ "-") in H as (Y & r1 & -> & HY & H);
      [| reflexivity].
    apply (words_run_then _ _ "-") in H as (M & r2 & -> & HM & H);
      [| reflexivity].
    apply (words_run_then _ _ "T") in H as (D & r3 & -> & HD & H);
      [| reflexivity].
    apply (words_run_then _ _ ":") in H as (h & r4 & -> & Hh & H);
      [| reflexivity].
    apply (words_run_then _ _ ":") in H as (m & r5 & -> & Hm & H);
      [| reflexivity].
    apply words_seconds_tail in H as (sec & fr & z & -> & Hsec & Hfr & Hz).
    exists Y, M, D, h, m, sec, fr, z.
    split; [reflexivity |]. repeat (split; [assumption |]); assumption.
  - intros (Y & M & D & h & m & sec & fr & z & -> &
            HY & HM & HD & Hh & Hm & Hsec & Hfr & Hz).
    apply (words_run_then _ _ "-"); [reflexivity |].
    eexists Y, _. split; [reflexivity |]. split; [exact HY |].
    apply (words_run_then _ _ "-"); [reflexivity |].
    eexists M, _. split; [reflexivity |]. split; [exact HM |].
    apply (words_run_then _ _ "T"); [reflexivity |].
    eexists D, _. split; [reflexivity |]. split; [exact HD |].
    apply (words_run_then _ _ ":"); [reflexivity |].
    eexists h, _. split; [reflexivity |]. split; [exact Hh |].
    apply (words_run_then _ _ ":"); [reflexivity |].
    eexists m, _. split; [reflexivity |]. split; [exact Hm |].
    apply words_seconds_tail. exists sec, fr, z.
    split; [reflexivity |]. repeat (split; [assumption |]); assumption.
Qed.

End DateFacts.

(* ================================================================== *)
(** * Further facts: the error boundary                                *)
(* ================================================================== *)

Section BoundaryFacts.

Import ErrorHandler Boundary.

Variable now : Date.

(** X26: after a value thrown by the children is caught, the boundary
    has [hasError] set and holds the value; [render] then gives the
    fallback (the custom one when the props have it) for every truthy
    value, and gives the children again for a falsy one.  For every
    value but [undefined] and [null], [componentDidCatch] records the
    error info and logs one [AppError] of the unknown kind, critical
    and not operational, that keeps the value as [originalError]; on
    [undefined] and [null] it throws while reading the message.
    [handleReset] calls [onReset] first: when that is absent or
    returns, the state is the initial one and the children render; when
    it throws, the boundary stays as it was. *)
Theorem X26_boundary_contains_and_resets
    (props : Props) (thrown : JsValue) (info : ErrorInfo) (w : World) :
  let outcome := fst (catch now props thrown info w) in
  let w' := snd (catch now props thrown info w) in
  hasError (state w') = true /\
  error (state w') = Some thrown /\
  render props (state w') =
    (if truthy thrown then
       if has_fallback props
       then custom_fallback thrown (errorInfo (state w'))
       else default_fallback thrown (errorInfo (state w'))
     else children) /\
  match thrown with
  | JsUndefined | JsNull =>
      (exists t, outcome = Throws t) /\
      console w' = console w /\
      errorInfo (state w') = errorInfo (state w)
  | _ =>
      errorInfo (state w') = Some info /\
      (exists e : AppError,
         console w' = (console w ++ [e])%list /\
         code e = UNKNOWN_ERROR /\ severity e = CRITICAL /\
         isOperational e = false /\ originalError e = thrown) /\
      outcome =
        match onError props with
        | Some callback => callback thrown info
        | None => Returns tt
        end
  end /\
  match
    match onReset props with
    | Some callback => callback tt
    | None => Returns tt
    end
  with
  | Returns _ =>
      handleReset props w' =
        (Returns tt, {| state := initial; console := console w' |}) /\
      render props (state (snd (handleReset props w'))) = children
  | Throws t => handleReset props w' = (Throws t, w')
  end.
Proof.
  cbv zeta. unfold catch, componentDidCatch, handleReset, render,
    getDerivedStateFromError.
  destruct (onReset props) as [reset |];
    [destruct (reset tt) as [[] | t] |];
    destruct thrown as [ | | b | n | s | ps | m ps | e ]; simpl;
    destruct (onError props) as [callback |]; simpl;
    repeat split;
    try (eexists; reflexivity);
    try (eexists; repeat split; reflexivity).
Qed.

End BoundaryFacts.

(* ================================================================== *)
(** * The further facts at concrete inputs                             *)
(* ================================================================== *)

Section MoreInstances.

Import ErrorHandler Properties.

(** The error of a mismatched confirmation is shown with its field. *)
Lemma X2_confirmation_instance :
  exists e : Api.ValidationError,
    failure_of "2024-01-01T00:00:00.000Z" (String.prefix "https://")
      (call_validatePasswordsMatch "Secret123" "Secret124") = Some e /\
    Api.getErrorMessage (Api.OfValidation e)
    = "password_confirmation: Passwords do not match".
Proof.
  eexists. split; [reflexivity |].
  destruct (X2_getErrorMessage_of_validator_failure
              "2024-01-01T00:00:00.000Z" (String.prefix "https://")
              (call_validatePasswordsMatch "Secret123" "Secret124") _ eq_refl)
    as (name & Hfield & _ & Hshown).
  injection Hfield as <-. exact Hshown.
Defined.

(** A row-level-security refusal without a code in the table gives the
    forbidden kind and keeps the backend's code in the metadata. *)
Lemma X11_row_level_security_instance :
  exists e : AppError,
    parseSupabaseError 0%Z
      (backend_failure "42501"
         "new row violates RLS policy for table posts")
      (Some "createPost")
    = Returns e /\
    code e = FORBIDDEN /\
    extra (metadata e) =
      [("code", JsString "42501"); ("details", JsUndefined)].
Proof.
  destruct (X11_parseSupabaseError_outcomes 0%Z
              (backend_failure "42501"
                 "new row violates RLS policy for table posts")
              (Some "createPost")
              "new row violates RLS policy for table posts" eq_refl)
    as (e & Hrun & _ & Hkind & _ & _ & Hextra).
  exists e. split; [exact Hrun |].
  split; [| exact Hextra].
  apply Hkind; [reflexivity | discriminate | discriminate].
Defined.

(** A database failure with the backend's own text is shown to the user
    with the fixed text of the database kind. *)
Lemma X14_database_text_instance :
  exists e : AppError,
    parseSupabaseError 0%Z
      (backend_failure "42P01" "relation posts_old does not exist") None
    = Returns e /\
    message e = "relation posts_old does not exist" /\
    getUserMessage e = "Something went wrong. Please try again.".
Proof.
  destruct (X14_backend_text_is_not_shown 0%Z
              (backend_failure "42P01" "relation posts_old does not exist")
              None "relation posts_old does not exist" eq_refl)
    as (e & Hrun & Hshown & _).
  exists e. split; [exact Hrun |].
  injection Hrun as <-. split; reflexivity.
Defined.

End MoreInstances.
